(** * ContactForm: validation and submission state machine

    Shallow embedding of [src/components/ContactForm.tsx]: the field
    store ([handleChange]), the validator ([validateForm]), the submit
    handler ([handleSubmit]) with its asynchronous continuation, the
    auto-reset timers, and the module-level stylesheet injection. *)

From Stdlib Require Import NArith ZArith Ascii String.
From stdpp Require Import base option list strings gmap fin_maps.

Local Open Scope string_scope.
Local Open Scope list_scope.

(** ** JavaScript strings

    A JavaScript string is a sequence of UTF-16 code units.  Values typed
    by the visitor are kept in that form, because both patterns are
    written without the [u] flag and therefore test code units.  Text
    that only ever comes from a literal of the source (messages, keys,
    the stylesheet) is kept as a [string]. *)

Definition jsstring : Type := list N.

(** Code units of an ASCII literal. *)
Definition str (s : string) : jsstring :=
  List.map N_of_ascii (list_ascii_of_string s).

(** ** Regular expressions

    Both patterns of [validateForm] are a [^], a concatenation of
    quantified one-character atoms and a [$]; they carry no flag. *)

Module RegExp.

(** A one-character atom: a character class, given by its members. *)
Definition atom : Type := N -> bool.

Definition char (a : string) : atom :=
  fun c => match str a with x :: _ => N.eqb c x | [] => false end.

Definition range (lo hi : string) : atom :=
  fun c => match str lo, str hi with
           | l :: _, h :: _ => N.leb l c && N.leb c h
           | _, _ => false
           end.

(** [\s]: the WhiteSpace and LineTerminator code points of ECMAScript. *)
Definition white_space : atom :=
  fun c =>
    N.eqb c 9 || N.eqb c 10 || N.eqb c 11 || N.eqb c 12 || N.eqb c 13
    || N.eqb c 32 || N.eqb c 160 || N.eqb c 5760
    || (N.leb 8192 c && N.leb c 8202)
    || N.eqb c 8232 || N.eqb c 8233 || N.eqb c 8239 || N.eqb c 8287
    || N.eqb c 12288 || N.eqb c 65279.

(** [[...]] and [[^...]]. *)
Definition one_of (members : list atom) : atom :=
  fun c => existsb (fun a => a c) members.

Definition none_of (members : list atom) : atom :=
  fun c => negb (one_of members c).

(** An atom with its quantifier [{min,max}]; [max = None] is unbounded. *)
Record term : Type := Term { cls : atom; min : nat; max : option nat }.

Definition once (a : atom) : term := Term a 1 (Some 1).        (* a      *)
Definition opt (a : atom) : term := Term a 0 (Some 1).         (* a?     *)
Definition plus (a : atom) : term := Term a 1 None.            (* a+     *)
Definition times (n : nat) (a : atom) : term := Term a n (Some n).   (* a{n}   *)
Definition between (m n : nat) (a : atom) : term := Term a m (Some n). (* a{m,n} *)

(** The body of an anchored pattern [/^ t1 t2 ... tn $/]. *)
Definition pattern : Type := list term.

(** Greedy backtracking matcher in continuation style: [k] is what has
    to match the rest of the input. *)
Fixpoint exactly (a : atom) (n : nat) (k : jsstring -> bool) (s : jsstring) : bool :=
  match n with
  | O => k s
  | S n' => match s with
            | c :: s' => a c && exactly a n' k s'
            | [] => false
            end
  end.

Definition more_allowed (limit : option nat) : bool :=
  match limit with Some O => false | _ => true end.

Definition one_less (limit : option nat) : option nat :=
  match limit with Some n => Some (Nat.pred n) | None => None end.

Fixpoint at_most (a : atom) (limit : option nat) (k : jsstring -> bool)
    (s : jsstring) : bool :=
  match s with
  | c :: s' =>
      if more_allowed limit && a c
      then at_most a (one_less limit) k s' || k s
      else k s
  | [] => k []
  end.

Definition extra (t : term) : option nat :=
  match max t with Some n => Some (n - min t) | None => None end.

Definition match_term (t : term) (k : jsstring -> bool) : jsstring -> bool :=
  exactly (cls t) (min t) (at_most (cls t) (extra t) k).

Definition at_end (s : jsstring) : bool :=
  match s with [] => true | _ => false end.

Fixpoint match_pattern (p : pattern) : jsstring -> bool :=
  match p with
  | [] => at_end
  | t :: p' => match_term t (match_pattern p')
  end.

(** [regex.test(s)] for a pattern without flags. *)
Definition test (p : pattern) (s : jsstring) : bool := match_pattern p s.

(** Declarative reading: the input splits into one block per term, each
    block made of members of the class, of an allowed length. *)
Definition allowed (t : term) (n : nat) : Prop :=
  min t <= n /\ match max t with Some m => n <= m | None => True end.

Inductive Matches : pattern -> jsstring -> Prop :=
| Matches_nil : Matches [] []
| Matches_cons t p block rest :
    Forall (fun c => cls t c = true) block ->
    allowed t (length block) ->
    Matches p rest ->
    Matches (t :: p) (block ++ rest).

Definition within (limit : option nat) (n : nat) : Prop :=
  match limit with Some m => n <= m | None => True end.

(** A quantifier [{m,n}] with [n < m] is a syntax error. *)
Definition well_formed (t : term) : Prop :=
  match max t with Some m => min t <= m | None => True end.

End RegExp.

(** ** The validator's two patterns *)

Import RegExp.

(** [/^[\+]?[(]?[0-9]{3}[)]?[-\s\.]?[0-9]{3}[-\s\.]?[0-9]{4,6}$/] *)
Definition phoneRegex : pattern :=
  [ opt (one_of [char "+"]);
    opt (one_of [char "("]);
    times 3 (one_of [range "0" "9"]);
    opt (one_of [char ")"]);
    opt (one_of [char "-"; white_space; char "."]);
    times 3 (one_of [range "0" "9"]);
    opt (one_of [char "-"; white_space; char "."]);
    between 4 6 (one_of [range "0" "9"]) ].

(** [/^[^\s@]+@[^\s@]+\.[^\s@]+$/] *)
Definition emailRegex : pattern :=
  [ plus (none_of [white_space; char "@"]);
    once (char "@");
    plus (none_of [white_space; char "@"]);
    once (char ".");
    plus (none_of [white_space; char "@"]) ].

(** ** Component state and the calls a handler makes *)

Inductive Status : Type := idle | sending | success | error.

Definition Status_eqb (a b : Status) : bool :=
  match a, b with
  | idle, idle | sending, sending | success, success | error, error => true
  | _, _ => false
  end.

(** [FormData] objects are keyed by field name: [handleChange] writes them
    through a computed key. *)
Abbreviation FormData := (gmap string jsstring).

(** A property read [o.k] gives [None] for [undefined]. *)
Abbreviation value := (option jsstring).

(** [ToString], as applied by [RegExp.prototype.test] to its argument. *)
Definition ToString (v : value) : jsstring :=
  match v with Some s => s | None => str "undefined" end.

Module emailjs.

Record EmailJSResponseStatus : Type := { status : Z; text : jsstring }.

(** One call [emailjs.send(serviceID, templateID, templateParams)]. *)
Record send : Type :=
  { serviceID : string; templateID : string;
    templateParams : gmap string value }.

(** How the promise returned by [send] settles. *)
Inductive Settled : Type :=
| Fulfilled (response : EmailJSResponseStatus)
| Rejected (reason : jsstring).

End emailjs.

Record ImportMetaEnv : Type :=
  { PUBLIC_EMAILJS_PUBLIC_KEY : string;
    PUBLIC_EMAILJS_SERVICE_ID : string;
    PUBLIC_EMAILJS_TEMPLATE_ID : string }.

(** The three [useState] setters; [setFormData] is called both with an
    object and with an updater function. *)
Inductive setter : Type :=
| setFormData (next : FormData)
| setFormDataWith (updater : FormData -> FormData)
| setStatus (next : Status)
| setErrorMessage (next : string).

(** What a handler does besides computing, in program order. *)
Inductive effect : Type :=
| preventDefault
| call (s : setter)
| setTimeout (callback : list setter) (ms : N)
| console_error (label : string) (reason : jsstring).

(** Handlers are written in a writer monad over their effects. *)
Definition handler (A : Type) : Type := list effect * A.

Definition effects {A} (h : handler A) : list effect := fst h.
Definition result {A} (h : handler A) : A := snd h.

#[global] Instance handler_ret : MRet handler := fun A a => ([], a).
#[global] Instance handler_bind : MBind handler :=
  fun A B k h => let r := k (snd h) in (fst h ++ fst r, snd r).

Definition do (e : effect) : handler unit := ([e], tt).

(** Where an [async] handler stops: at its end, or suspended on the promise
    of a [send] call with the rest of its body as continuation. *)
Inductive Async : Type :=
| Return
| Await (request : emailjs.send) (resume : emailjs.Settled -> handler unit).

(** ** The handlers *)

Definition handleChange (name : string) (value : jsstring) : handler unit :=
  do (call (setFormDataWith (fun prev => <[name := value]> prev))).

Definition validateForm (formData : FormData) : handler bool :=
  (* Validation du telephone *)
  if negb (test phoneRegex (ToString (formData !! "phone"))) then
    do (call (setErrorMessage "Numéro de téléphone invalide"));;
    mret false
  (* Validation email *)
  else if negb (test emailRegex (ToString (formData !! "email"))) then
    do (call (setErrorMessage "Email invalide"));;
    mret false
  else
    mret true.

(** The six fields, all empty: the initial state and the reset value. *)
Definition emptyForm : FormData :=
  <["firstname" := []]> (<["lastname" := []]> (<["email" := []]>
  (<["phone" := []]> (<["service" := []]> (<["message" := []]> ∅))))).

(** The body of [handleSubmit] after [await emailjs.send(...)], with the
    [try]/[catch] around it. *)
Definition handleSubmit_settled (outcome : emailjs.Settled) : handler unit :=
  match outcome with
  | emailjs.Fulfilled response =>
      if Z.eqb (emailjs.status response) 200 then
        do (call (setStatus success));;
        (* Reinitialiser le formulaire *)
        do (call (setFormData emptyForm));;
        (* Message de succes pendant 5 secondes *)
        do (setTimeout [setStatus idle] 5000)
      else
        mret tt
  | emailjs.Rejected reason =>
      do (console_error "Erreur EmailJS:" reason);;
      do (call (setStatus error));;
      do (call (setErrorMessage "Une erreur est survenue. Veuillez réessayer."));;
      (* Reset apres 5 secondes *)
      do (setTimeout [setStatus idle; setErrorMessage ""] 5000)
  end.

(** [date] is the value of [new Date().toLocaleString('fr-FR')] when the
    handler runs. *)
Definition handleSubmit (env : ImportMetaEnv) (formData : FormData)
    (date : jsstring) : handler Async :=
  do preventDefault;;
  (* Reset messages *)
  do (call (setErrorMessage ""));;
  (* Validation *)
  valid ← validateForm formData;
  if negb valid then
    do (call (setStatus error));;
    mret Return
  else
    do (call (setStatus sending));;
    let templateParams : gmap string value :=
      <["reply_to" := formData !! "email"]>
        (<["to_email" := Some (str "contact@evakech.com")]>
           (<["date" := Some date]> (Some <$> formData))) in
    mret (Await
            {| emailjs.serviceID := PUBLIC_EMAILJS_SERVICE_ID env;
               emailjs.templateID := PUBLIC_EMAILJS_TEMPLATE_ID env;
               emailjs.templateParams := templateParams |}
            handleSubmit_settled).

(** ** The mounted component

    The three pieces of React state, together with what the handlers have
    handed to the outside: the pending timers, the calls made to
    [emailjs.send], the handlers suspended on an [await] and the console. *)

Record Timer : Type := { due : N; callback : list setter }.

Record Component : Type :=
  { formData : FormData;
    status : Status;
    errorMessage : string;
    clock : N;
    timers : list Timer;
    sent : list emailjs.send;
    awaiting : list (emailjs.Settled -> handler unit);
    console : list (string * jsstring) }.

(** [useState] initial values, nothing pending. *)
Definition mount : Component :=
  {| formData := emptyForm; status := idle; errorMessage := "";
     clock := 0; timers := []; sent := []; awaiting := []; console := [] |}.

Definition apply_setter (c : Component) (s : setter) : Component :=
  match s with
  | setFormData next =>
      {| formData := next; status := status c; errorMessage := errorMessage c;
         clock := clock c; timers := timers c; sent := sent c;
         awaiting := awaiting c; console := console c |}
  | setFormDataWith updater =>
      {| formData := updater (formData c); status := status c;
         errorMessage := errorMessage c;
         clock := clock c; timers := timers c; sent := sent c;
         awaiting := awaiting c; console := console c |}
  | setStatus next =>
      {| formData := formData c; status := next; errorMessage := errorMessage c;
         clock := clock c; timers := timers c; sent := sent c;
         awaiting := awaiting c; console := console c |}
  | setErrorMessage next =>
      {| formData := formData c; status := status c; errorMessage := next;
         clock := clock c; timers := timers c; sent := sent c;
         awaiting := awaiting c; console := console c |}
  end.

(** Timers fire by due time, and in scheduling order when due together:
    a new timer goes behind every timer due no later than itself. *)
Fixpoint schedule (t : Timer) (queue : list Timer) : list Timer :=
  match queue with
  | [] => [t]
  | u :: queue' =>
      if N.leb (due u) (due t) then u :: schedule t queue' else t :: queue
  end.

Definition with_timers (c : Component) (queue : list Timer) : Component :=
  {| formData := formData c; status := status c; errorMessage := errorMessage c;
     clock := clock c; timers := queue; sent := sent c;
     awaiting := awaiting c; console := console c |}.

Definition apply_effect (c : Component) (e : effect) : Component :=
  match e with
  | preventDefault => c
  | call s => apply_setter c s
  | setTimeout cb ms =>
      with_timers c
        (schedule {| due := (clock c + ms)%N; callback := cb |} (timers c))
  | console_error label reason =>
      {| formData := formData c; status := status c;
         errorMessage := errorMessage c;
         clock := clock c; timers := timers c; sent := sent c;
         awaiting := awaiting c; console := console c ++ [(label, reason)] |}
  end.

Definition run (c : Component) (es : list effect) : Component :=
  fold_left apply_effect es c.

(** *** Events *)

(** [onChange={handleChange}] with [e.target] = [{name, value}]. *)
Definition onChange (c : Component) (name : string) (value : jsstring) : Component :=
  run c (effects (handleChange name value)).

(** The call made at an [await], and the suspended rest of the handler. *)
Definition suspend (c : Component) (a : Async) : Component :=
  match a with
  | Return => c
  | Await request resume =>
      {| formData := formData c; status := status c;
         errorMessage := errorMessage c;
         clock := clock c; timers := timers c; sent := sent c ++ [request];
         awaiting := awaiting c ++ [resume]; console := console c |}
  end.

(** [onSubmit={handleSubmit}]: the handler runs up to its [await]. *)
Definition onSubmit (env : ImportMetaEnv) (c : Component) (date : jsstring) : Component :=
  let h := handleSubmit env (formData c) date in
  suspend (run c (effects h)) (result h).

(** [disabled={status === 'sending'}], on every input and on the submit
    button. *)
Definition disabled (c : Component) : bool := Status_eqb (status c) sending.

(** A submit event for the form: the handler runs unless the submit
    button is disabled.  This is what a press of the button does once the
    browser's own validation of the controls has let it through; [press]
    below adds that validation. *)
Definition submit (env : ImportMetaEnv) (c : Component) (date : jsstring) : Component :=
  if disabled c then c else onSubmit env c date.

(** The visitor edits the control called [name]: a disabled control cannot
    be edited. *)
Definition change (c : Component) (name : string) (value : jsstring) : Component :=
  if disabled c then c else onChange c name value.

(** The promise of the [i]-th suspended handler settles. *)
Definition settle (c : Component) (i : nat) (outcome : emailjs.Settled) : Component :=
  match awaiting c !! i with
  | Some resume =>
      run {| formData := formData c; status := status c;
             errorMessage := errorMessage c;
             clock := clock c; timers := timers c; sent := sent c;
             awaiting := delete i (awaiting c); console := console c |}
          (effects (resume outcome))
  | None => c
  end.

(** Timers due by [now], in firing order, and the ones still pending. *)
Fixpoint expired (now : N) (queue : list Timer) : list Timer * list Timer :=
  match queue with
  | [] => ([], [])
  | t :: queue' =>
      if N.leb (due t) now
      then let r := expired now queue' in (t :: fst r, snd r)
      else ([], queue)
  end.

Definition fire (c : Component) (t : Timer) : Component :=
  fold_left apply_setter (callback t) c.

(** [dt] milliseconds pass: every timer due by then fires once and is
    gone. *)
Definition advance (c : Component) (dt : N) : Component :=
  let now := (clock c + dt)%N in
  let r := expired now (timers c) in
  fold_left fire (fst r)
    {| formData := formData c; status := status c;
       errorMessage := errorMessage c;
       clock := now; timers := snd r; sent := sent c;
       awaiting := awaiting c; console := console c |}.

Inductive event : Type :=
| Change (name : string) (value : jsstring)
| Submit (date : jsstring)
| Settle (i : nat) (outcome : emailjs.Settled)
| Advance (dt : N).

Definition step (env : ImportMetaEnv) (c : Component) (e : event) : Component :=
  match e with
  | Change name value => change c name value
  | Submit date => submit env c date
  | Settle i outcome => settle c i outcome
  | Advance dt => advance c dt
  end.

(** ** The document and the stylesheet injection *)

Module DOM.

(** An element with its [id] attribute ([""] when it has none). *)
#[warnings="-register-all"]
Inductive Element : Type :=
| Elem (localName : string) (id : string) (textContent : string)
       (children : list Element).

Definition localName (e : Element) : string :=
  match e with Elem n _ _ _ => n end.
Definition id (e : Element) : string :=
  match e with Elem _ i _ _ => i end.
Definition textContent (e : Element) : string :=
  match e with Elem _ _ t _ => t end.
Definition children (e : Element) : list Element :=
  match e with Elem _ _ _ ch => ch end.

(** The elements of a subtree, in tree order. *)
Fixpoint elements (e : Element) : list Element :=
  match e with
  | Elem _ _ _ ch => e :: List.flat_map elements ch
  end.

(** The two subtrees of a document. *)
Record Document : Type := { head : Element; body : Element }.

Definition all_elements (d : Document) : list Element :=
  elements (head d) ++ elements (body d).

(** The first element in tree order carrying that id, or [None] for
    [null]. *)
Definition getElementById (d : Document) (i : string) : option Element :=
  List.find (fun e => String.eqb (id e) i) (all_elements d).

(** [document.createElement(name)], then [id] and [textContent] set. *)
Definition createElement (name i content : string) : Element :=
  Elem name i content [].

(** [parent.appendChild(child)] for a [child] that is not in the tree. *)
Definition appendChild (parent child : Element) : Element :=
  match parent with
  | Elem n i t ch => Elem n i t (ch ++ [child])
  end.

Definition head_appendChild (d : Document) (child : Element) : Document :=
  {| head := appendChild (head d) child; body := body d |}.

(** A test that looks at an element's name and id only. *)
Definition shallow (f : Element -> bool) : Prop :=
  forall n i t ch ch', f (Elem n i t ch) = f (Elem n i t ch').

End DOM.

Definition quote : string := String (ascii_of_nat 34) EmptyString.

Definition styles : string :=
  "
.contact-form {
  max-width: 600px;
  margin: 0 auto;
  padding: 2rem;
  background: rgba(255, 255, 255, 0.95);
  border-radius: 16px;
  box-shadow: 0 8px 32px rgba(0, 0, 0, 0.1);
  backdrop-filter: blur(10px);
  border: 1px solid rgba(255, 255, 255, 0.2);
}

.form-row {
  display: flex;
  gap: 1rem;
  margin-bottom: 1.5rem;
}

.form-group {
  flex: 1;
  margin-bottom: 1.5rem;
}

.form-group label {
  display: block;
  margin-bottom: 0.5rem;
  font-weight: 500;
  color: #2c3e50;
  font-size: 0.95rem;
}

.form-group input,
.form-group select,
.form-group textarea {
  width: 100%;
  padding: 0.75rem 1rem;
  border: 2px solid #e2e8f0;
  border-radius: 8px;
  font-size: 1rem;
  transition: all 0.3s ease;
  background: #fff;
  box-sizing: border-box;
}

.form-group input:focus,
.form-group select:focus,
.form-group textarea:focus {
  outline: none;
  border-color: #CFAE70;
  box-shadow: 0 0 0 3px rgba(207, 174, 112, 0.1);
}

.form-group input:disabled,
.form-group select:disabled,
.form-group textarea:disabled {
  background: #f8f9fa;
  color: #6c757d;
  cursor: not-allowed;
}

.form-group textarea {
  resize: vertical;
  min-height: 120px;
}

.checkbox-label {
  display: flex;
  align-items: flex-start;
  gap: 0.5rem;
  font-size: 0.9rem;
  cursor: pointer;
}

.checkbox-label input[type=" ++ quote ++ "checkbox" ++ quote ++ "] {
  width: auto;
  margin: 0.2rem 0;
}

.alert {
  padding: 1rem;
  border-radius: 8px;
  margin-bottom: 1.5rem;
  text-align: center;
  font-weight: 500;
}

.alert-success {
  background: rgba(16, 185, 129, 0.1);
  color: #059669;
  border: 1px solid rgba(16, 185, 129, 0.2);
}

.alert-error {
  background: rgba(239, 68, 68, 0.1);
  color: #dc2626;
  border: 1px solid rgba(239, 68, 68, 0.2);
}

.form-submit {
  width: 100%;
  padding: 1rem 2rem;
  background: linear-gradient(135deg, #CFAE70 0%, #B59A5C 100%);
  color: white;
  border: none;
  border-radius: 8px;
  font-size: 1.1rem;
  font-weight: 600;
  cursor: pointer;
  transition: all 0.3s ease;
  margin-top: 1rem;
  display: flex;
  align-items: center;
  justify-content: center;
  gap: 0.5rem;
}

.form-submit:hover:not(:disabled) {
  transform: translateY(-2px);
  box-shadow: 0 8px 25px rgba(207, 174, 112, 0.3);
}

.form-submit:disabled {
  opacity: 0.6;
  cursor: not-allowed;
  transform: none;
}

.loading {
  display: flex;
  align-items: center;
  gap: 0.5rem;
}

.spinner {
  width: 16px;
  height: 16px;
  border: 2px solid rgba(255, 255, 255, 0.3);
  border-top: 2px solid white;
  border-radius: 50%;
  animation: spin 1s linear infinite;
}

@keyframes spin {
  0% { transform: rotate(0deg); }
  100% { transform: rotate(360deg); }
}

@media (max-width: 768px) {
  .contact-form {
    margin: 1rem;
    padding: 1.5rem;
  }
  
  .form-row {
    flex-direction: column;
    gap: 0;
  }
  
  .form-group {
    margin-bottom: 1rem;
  }
}
".

(** The module's top-level statement.  [window] is [None] where
    [typeof window] is ['undefined'] (no document), else the document. *)
Definition inject_styles (window : option DOM.Document) : option DOM.Document :=
  match window with
  | None => None
  | Some document =>
      match DOM.getElementById document "contact-form-styles" with
      | None =>
          let styleElement :=
            DOM.createElement "style" "contact-form-styles" styles in
          Some (DOM.head_appendChild document styleElement)
      | Some _ => Some document
      end
  end.

(** How many [style] elements of the document carry the marker id. *)
Definition marked_styles (d : DOM.Document) : nat :=
  length (List.filter
            (fun e => String.eqb (DOM.localName e) "style"
                      && String.eqb (DOM.id e) "contact-form-styles")
            (DOM.all_elements d)).

(** How many elements of any kind carry the marker id. *)
Definition marked_elements (d : DOM.Document) : nat :=
  length (List.filter (fun e => String.eqb (DOM.id e) "contact-form-styles")
            (DOM.all_elements d)).

(** ** Vocabulary of the statements *)

(** The two checks of [validateForm], as it reads the fields. *)
Definition phone_ok (formData : FormData) : bool :=
  test phoneRegex (ToString (formData !! "phone")).

Definition email_ok (formData : FormData) : bool :=
  test emailRegex (ToString (formData !! "email")).

(** The request [handleSubmit] builds from the fields. *)
Definition request_of (env : ImportMetaEnv) (formData : FormData)
    (date : jsstring) : emailjs.send :=
  {| emailjs.serviceID := PUBLIC_EMAILJS_SERVICE_ID env;
     emailjs.templateID := PUBLIC_EMAILJS_TEMPLATE_ID env;
     emailjs.templateParams :=
       <["reply_to" := formData !! "email"]>
         (<["to_email" := Some (str "contact@evakech.com")]>
            (<["date" := Some date]> (Some <$> formData))) |}.

(** The state after a run of events. *)
Definition after (env : ImportMetaEnv) (c : Component) (events : list event)
    : Component :=
  fold_left (step env) events c.

(** Nothing is pending: no timer, no suspended handler. *)
Definition quiet (c : Component) : Prop := timers c = [] /\ awaiting c = [].

(** The names of the six controls bound to [handleChange]. *)
Definition field_names : list string :=
  ["firstname"; "lastname"; "email"; "phone"; "service"; "message"].

(** A component showing the given field values, otherwise as mounted. *)
Definition showing (fields : FormData) : Component :=
  {| formData := fields; status := idle; errorMessage := "";
     clock := 0; timers := []; sent := []; awaiting := []; console := [] |}.

Definition form (firstname lastname email phone service message : string)
    : FormData :=
  <["firstname" := str firstname]> (<["lastname" := str lastname]>
  (<["email" := str email]> (<["phone" := str phone]>
  (<["service" := str service]> (<["message" := str message]> ∅))))).

(** *** What the form shows *)

(** [{status === 'error' && errorMessage && (<div ...>{errorMessage}</div>)}]:
    an empty message is falsy and shows nothing. *)
Definition error_alert (c : Component) : option string :=
  if Status_eqb (status c) error && negb (String.eqb (errorMessage c) "")
  then Some (errorMessage c)
  else None.

(** *** Character classes and counts *)

(** [[0-9]], as written in [phoneRegex]. *)
Definition digit : atom := one_of [range "0" "9"].

(** [[^\s@]], as written in [emailRegex]. *)
Definition plain : atom := none_of [white_space; char "@"].

(** Every character some term of [phoneRegex] can match. *)
Definition phone_char : atom :=
  one_of [char "+"; char "("; char ")"; char "-"; char "."; white_space;
          range "0" "9"].

Definition count (a : atom) (s : jsstring) : nat := length (List.filter a s).

(** *** States the component can be in *)

(** The two callbacks [handleSubmit] hands to [setTimeout]. *)
Definition reset_callback (cb : list setter) : Prop :=
  cb = [setStatus idle] \/ cb = [setStatus idle; setErrorMessage ""].

(** What is pending was put there by [handleSubmit]: every suspended
    handler is its continuation, every timer one of its two resets, due at
    most 5000 ms from now. *)
Definition genuine (c : Component) : Prop :=
  Forall (fun k => k = handleSubmit_settled) (awaiting c) /\
  Forall (fun t => reset_callback (callback t) /\ (due t <= clock c + 5000)%N)
    (timers c).

Definition has_fields (fields : FormData) : Prop :=
  Forall (fun name => is_Some (fields !! name)) field_names.

Definition consistent (c : Component) : Prop :=
  (status c = error -> errorMessage c <> "") /\
  (status c = sending -> errorMessage c = "") /\
  (status c = success -> timers c <> []).

Definition sound (c : Component) : Prop :=
  genuine c /\ has_fields (formData c) /\ consistent c.

(** A request whose phone and email parameters pass the two patterns and
    whose reply-to address is that email. *)
Definition checked_request (r : emailjs.send) : Prop :=
  exists phone email,
    emailjs.templateParams r !! "phone" = Some (Some phone) /\
    emailjs.templateParams r !! "email" = Some (Some email) /\
    emailjs.templateParams r !! "reply_to" = Some (Some email) /\
    test phoneRegex phone = true /\
    test emailRegex email = true.

(** Does the event make a pending timer fire? *)
Definition fires (c : Component) (e : event) : bool :=
  match e with
  | Advance dt =>
      match fst (expired (clock c + dt) (timers c)) with
      | [] => false
      | _ :: _ => true
      end
  | _ => false
  end.

(** A run of events during which no timer fires. *)
Fixpoint no_timer_fires (env : ImportMetaEnv) (c : Component)
    (events : list event) : bool :=
  match events with
  | [] => true
  | e :: events' => negb (fires c e) && no_timer_fires env (step env c e) events'
  end.

(** *** A press of the submit button

    The form has no [noValidate], so the browser checks the controls
    before it dispatches the submit event: [required] on the first name,
    last name, email, phone and service controls and on the consent box,
    and [type="email"] on the email control. *)

Definition required_fields : list string :=
  ["firstname"; "lastname"; "email"; "phone"; "service"].

(** What the page's browser brings: its test of a [type="email"] value. *)
Record Browser : Type := { valid_email_address : jsstring -> bool }.

(** The value shown by the control bound to [name]
    ([value={formData.name}]); the form data of a mounted component never
    lacks one of its six fields. *)
Definition control_value (c : Component) (name : string) : jsstring :=
  match formData c !! name with Some v => v | None => [] end.

Definition value_missing (c : Component) (name : string) : bool :=
  match control_value c name with [] => true | _ :: _ => false end.

(** [consent] is the state of the consent box, which the component does
    not hold. *)
Definition checkValidity (browser : Browser) (c : Component) (consent : bool)
    : bool :=
  forallb (fun name => negb (value_missing c name)) required_fields
  && valid_email_address browser (control_value c "email")
  && consent.

Definition press (env : ImportMetaEnv) (browser : Browser) (c : Component)
    (consent : bool) (date : jsstring) : Component :=
  if disabled c then c
  else if checkValidity browser c consent then onSubmit env c date
  else c.

(** At most one call is awaited, and only in status [sending]. *)
Definition one_in_flight (c : Component) : Prop :=
  length (awaiting c) <= 1 /\ (awaiting c <> [] -> status c = sending).

(** Sample inputs. *)
Definition jane : FormData :=
  form "Jane" "Doe" "jane@example.com" "+212 600 000 000" "Autre" "".

Definition jane_ungrouped : FormData :=
  form "Jane" "Doe" "jane@example.com" "+212 600 000000" "Autre" "".

Definition short_phone : FormData :=
  form "Jane" "Doe" "jane@example.com" "123" "Autre" "".

Definition bad_email : FormData :=
  form "Jane" "Doe" "not-an-email" "+212 600 000000" "Autre" "".

Definition bad_both : FormData :=
  form "Jane" "Doe" "not-an-email" "123" "Autre" "".

Definition sample_env : ImportMetaEnv :=
  {| PUBLIC_EMAILJS_PUBLIC_KEY := "public_key";
     PUBLIC_EMAILJS_SERVICE_ID := "service_id";
     PUBLIC_EMAILJS_TEMPLATE_ID := "template_id" |}.

(** A browser whose [type="email"] test lets through what [emailRegex]
    lets through. *)
Definition sample_browser : Browser :=
  {| valid_email_address := test emailRegex |}.

Definition sample_date : jsstring := str "02/11/2026 10:00:00".

Definition accepted (code : Z) : emailjs.Settled :=
  emailjs.Fulfilled {| emailjs.status := code; emailjs.text := str "OK" |}.

(** A form whose last call was rejected 3000 ms ago: its reset is still
    pending. *)
Definition awaiting_reset : Component :=
  after sample_env (showing jane_ungrouped)
    [Submit sample_date; Settle 0 (emailjs.Rejected []); Advance 3000].

(** A page that already uses the marker id for something else. *)
Definition clashing_document : DOM.Document :=
  {| DOM.head := DOM.Elem "head" "" "" [DOM.Elem "title" "" "Contact" []];
     DOM.body := DOM.Elem "body" "" ""
                   [DOM.Elem "div" "contact-form-styles" "" []] |}.

Definition plain_document : DOM.Document :=
  {| DOM.head := DOM.Elem "head" "" "" [DOM.Elem "title" "" "Contact" []];
     DOM.body := DOM.Elem "body" "" "" [DOM.Elem "main" "app" "" []] |}.

(** * Properties *)

(** ** The matcher decides the declarative reading of a pattern *)

Module RegExpFacts.

Lemma exactly_true a n k s :
  exactly a n k s = true <->
  exists block rest, s = block ++ rest /\ length block = n /\
    Forall (fun c => a c = true) block /\ k rest = true.
Proof.
  revert s. induction n as [|n IH]; intros s; simpl.
  - split.
    + intros Hk. exists [], s. repeat split; auto.
    + intros (block & rest & -> & Hlen & _ & Hk).
      destruct block; [exact Hk | discriminate].
  - destruct s as [|c s'].
    + split; [discriminate|].
      intros (block & rest & Heq & Hlen & _).
      destruct block; discriminate.
    + rewrite andb_true_iff, IH. split.
      * intros (Hc & block & rest & -> & Hlen & Hall & Hk).
        exists (c :: block), rest. simpl. repeat split; auto.
      * intros (block & rest & Heq & Hlen & Hall & Hk).
        destruct block as [|c' block]; [discriminate|].
        simpl in Heq, Hlen. injection Heq as <- ->.
        inversion Hall; subst. split; [assumption|].
        exists block, rest. repeat split; auto.
Qed.

Lemma within_one_less limit n :
  more_allowed limit = true -> within (one_less limit) n <-> within limit (S n).
Proof.
  destruct limit as [[|m]|]; simpl; try discriminate; intros _; [lia | tauto].
Qed.

Lemma within_O limit : within limit 0.
Proof. destruct limit; simpl; [lia | exact I]. Qed.

Lemma at_most_true a k s : forall limit,
  at_most a limit k s = true <->
  exists block rest, s = block ++ rest /\ within limit (length block) /\
    Forall (fun c => a c = true) block /\ k rest = true.
Proof.
  induction s as [|c s' IH]; intros limit; simpl.
  - split.
    + intros Hk. exists [], []. repeat split; auto using within_O.
    + intros (block & rest & Heq & _ & _ & Hk).
      symmetry in Heq. apply app_eq_nil in Heq as [_ ->]. exact Hk.
  - destruct (more_allowed limit && a c) eqn:Hgo.
    + apply andb_true_iff in Hgo as [Hmore Hc].
      rewrite orb_true_iff, IH. split.
      * intros [(block & rest & -> & Hlim & Hall & Hk) | Hk].
        -- exists (c :: block), rest. simpl.
           repeat split; auto. by apply within_one_less.
        -- exists [], (c :: s'). repeat split; auto using within_O.
      * intros (block & rest & Heq & Hlim & Hall & Hk).
        destruct block as [|c' block].
        -- right. simpl in Heq. by subst rest.
        -- left. simpl in Heq, Hlim. injection Heq as <- ->.
           inversion Hall; subst.
           exists block, rest. repeat split; auto.
           by apply within_one_less.
    + split.
      * intros Hk. exists [], (c :: s'). repeat split; auto using within_O.
      * intros (block & rest & Heq & Hlim & Hall & Hk).
        destruct block as [|c' block]; [simpl in Heq; by subst rest|].
        exfalso. simpl in Heq, Hlim. injection Heq as <- ->.
        inversion Hall; subst.
        apply andb_false_iff in Hgo as [Hmore | Hc]; [|congruence].
        destruct limit as [[|m]|]; simpl in *; try discriminate; lia.
Qed.

Lemma match_term_true t k s :
  well_formed t ->
  match_term t k s = true <->
  exists block rest, s = block ++ rest /\ allowed t (length block) /\
    Forall (fun c => cls t c = true) block /\ k rest = true.
Proof.
  intros Hwf. unfold match_term. rewrite exactly_true. split.
  - intros (b1 & r1 & -> & Hlen & Hall1 & Hrest).
    apply at_most_true in Hrest as (b2 & rest & -> & Hlim & Hall2 & Hk).
    exists (b1 ++ b2), rest. rewrite <- app_assoc.
    repeat split; auto.
    + rewrite length_app. lia.
    + unfold extra in Hlim. unfold well_formed in Hwf. rewrite length_app.
      destruct (max t); simpl in *; [lia | exact I].
    + by apply Forall_app.
  - intros (block & rest & -> & [Hmin Hmax] & Hall & Hk).
    exists (take (min t) block), (drop (min t) block ++ rest).
    rewrite app_assoc, take_drop. repeat split; auto.
    + rewrite length_take. lia.
    + by apply Forall_take.
    + apply at_most_true. exists (drop (min t) block), rest.
      repeat split; auto.
      * unfold extra. rewrite length_drop.
        destruct (max t); simpl in *; [lia | exact I].
      * by apply Forall_drop.
Qed.

(** [test] accepts exactly the inputs that split along the pattern. *)
Lemma test_Matches p s :
  Forall well_formed p -> test p s = true <-> Matches p s.
Proof.
  unfold test. intros Hwf. revert s.
  induction Hwf as [|t p Ht Hp IH]; intros s; simpl.
  - split.
    + destruct s; [constructor | discriminate].
    + inversion 1. reflexivity.
  - rewrite (match_term_true _ _ _ Ht). split.
    + intros (block & rest & -> & Hok & Hall & Hk).
      constructor; auto. by apply IH.
    + intros HM. inversion HM as [|t' p' block rest Hall Hok Hrest]; subst.
      exists block, rest. split; [reflexivity|].
      split; [exact Hok|]. split; [exact Hall|]. by apply IH.
Qed.

Lemma phoneRegex_well_formed : Forall well_formed phoneRegex.
Proof. repeat constructor. Qed.

Lemma emailRegex_well_formed : Forall well_formed emailRegex.
Proof. repeat constructor. Qed.

End RegExpFacts.

(** ** What the handlers do *)

Lemma disabled_true c : disabled c = true <-> status c = sending.
Proof. unfold disabled. destruct (status c); simpl; split; congruence. Qed.

Lemma submit_enabled env c date :
  status c <> sending -> submit env c date = onSubmit env c date.
Proof.
  intros Hs. unfold submit.
  destruct (disabled c) eqn:Hd; [|reflexivity].
  apply disabled_true in Hd. contradiction.
Qed.

Lemma validateForm_phone_invalid formData :
  phone_ok formData = false ->
  validateForm formData =
    ([call (setErrorMessage "Numéro de téléphone invalide")], false).
Proof. unfold phone_ok, validateForm. intros ->. reflexivity. Qed.

Lemma validateForm_email_invalid formData :
  phone_ok formData = true -> email_ok formData = false ->
  validateForm formData = ([call (setErrorMessage "Email invalide")], false).
Proof. unfold phone_ok, email_ok, validateForm. intros -> ->. reflexivity. Qed.

Lemma validateForm_valid formData :
  phone_ok formData = true -> email_ok formData = true ->
  validateForm formData = ([], true).
Proof. unfold phone_ok, email_ok, validateForm. intros -> ->. reflexivity. Qed.

(** The handler on a rejected form: the message, then the status, then it
    returns. *)
Lemma handleSubmit_rejected env formData date message :
  validateForm formData = ([call (setErrorMessage message)], false) ->
  handleSubmit env formData date =
    ([preventDefault; call (setErrorMessage ""); call (setErrorMessage message);
      call (setStatus error)], Return).
Proof. unfold handleSubmit. intros ->. reflexivity. Qed.

Lemma onSubmit_rejected env c date message :
  validateForm (formData c) = ([call (setErrorMessage message)], false) ->
  onSubmit env c date =
    {| formData := formData c; status := error; errorMessage := message;
       clock := clock c; timers := timers c; sent := sent c;
       awaiting := awaiting c; console := console c |}.
Proof.
  intros Hv. unfold onSubmit.
  rewrite (handleSubmit_rejected _ _ _ _ Hv). reflexivity.
Qed.

Lemma handleSubmit_valid env formData date :
  validateForm formData = ([], true) ->
  handleSubmit env formData date =
    ([preventDefault; call (setErrorMessage ""); call (setStatus sending)],
     Await (request_of env formData date) handleSubmit_settled).
Proof. unfold handleSubmit. intros ->. reflexivity. Qed.

Lemma onSubmit_valid env c date :
  phone_ok (formData c) = true -> email_ok (formData c) = true ->
  onSubmit env c date =
    {| formData := formData c; status := sending; errorMessage := "";
       clock := clock c; timers := timers c;
       sent := sent c ++ [request_of env (formData c) date];
       awaiting := awaiting c ++ [handleSubmit_settled];
       console := console c |}.
Proof.
  intros Hp He. unfold onSubmit.
  rewrite (handleSubmit_valid _ _ _ (validateForm_valid _ Hp He)). reflexivity.
Qed.

Lemma reply_to_is_email env formData date :
  emailjs.templateParams (request_of env formData date) !! "reply_to"
  = Some (formData !! "email").
Proof. unfold request_of. simpl. apply lookup_insert_eq. Qed.

(** ** Timers *)

Lemma expired_schedule t queue :
  expired (due t) (schedule t queue) =
    (fst (expired (due t) queue) ++ [t], snd (expired (due t) queue)).
Proof.
  induction queue as [|u queue IH]; simpl.
  - rewrite N.leb_refl. reflexivity.
  - destruct (N.leb (due u) (due t)) eqn:Hu; simpl.
    + rewrite Hu, IH. reflexivity.
    + rewrite N.leb_refl. simpl. rewrite Hu. reflexivity.
Qed.

Lemma fold_left_fire_last c ts t :
  fold_left fire (ts ++ [t]) c = fire (fold_left fire ts c) t.
Proof. apply fold_left_app. Qed.

(** A timer that has just been scheduled is the last to fire when its
    delay has passed; what its callback sets last is what remains. *)
Lemma advance_scheduled_status c cb ms :
  status (advance
            (with_timers c
               (schedule {| due := (clock c + ms)%N; callback := cb ++ [setStatus idle] |}
                  (timers c))) ms) = idle.
Proof.
  unfold advance. simpl.
  pose proof (expired_schedule
    {| due := (clock c + ms)%N; callback := cb ++ [setStatus idle] |} (timers c)) as H.
  simpl in H. rewrite H. simpl.
  rewrite fold_left_fire_last. unfold fire at 1. simpl.
  rewrite fold_left_app. reflexivity.
Qed.

Lemma advance_no_timer c dt :
  timers c = [] ->
  advance c dt =
    {| formData := formData c; status := status c;
       errorMessage := errorMessage c; clock := (clock c + dt)%N; timers := [];
       sent := sent c; awaiting := awaiting c; console := console c |}.
Proof. unfold advance. intros ->. reflexivity. Qed.

(** ** After the [await] *)

Lemma settled_other_status response :
  emailjs.status response <> 200%Z ->
  handleSubmit_settled (emailjs.Fulfilled response) = ([], tt).
Proof.
  intros Hs. unfold handleSubmit_settled.
  apply Z.eqb_neq in Hs. rewrite Hs. reflexivity.
Qed.

Lemma settled_ok response :
  emailjs.status response = 200%Z ->
  handleSubmit_settled (emailjs.Fulfilled response) =
    ([call (setStatus success); call (setFormData emptyForm);
      setTimeout [setStatus idle] 5000], tt).
Proof. intros Hs. unfold handleSubmit_settled. rewrite Hs. reflexivity. Qed.

(** The [catch] branch: the fault is logged, the generic message shown,
    the fields kept, and the reset timer scheduled. *)
Lemma settled_rejected c reason :
  run c (effects (handleSubmit_settled (emailjs.Rejected reason))) =
    {| formData := formData c; status := error;
       errorMessage := "Une erreur est survenue. Veuillez réessayer.";
       clock := clock c;
       timers := schedule {| due := (clock c + 5000)%N;
                             callback := [setStatus idle; setErrorMessage ""] |}
                   (timers c);
       sent := sent c; awaiting := awaiting c;
       console := console c ++ [("Erreur EmailJS:", reason)] |}.
Proof. reflexivity. Qed.



(** ** Remarks on the patterns and on the guard *)

(** The two failing scenarios of the validator. *)
Example phone_123_rejected : test phoneRegex (str "123") = false.
Proof. reflexivity. Qed.

Example not_an_email_rejected : test emailRegex (str "not-an-email") = false.
Proof. reflexivity. Qed.

(** The phone control's own placeholder does not pass the phone check. *)
Example placeholder_rejected :
  test phoneRegex (str "+212 6 00 00 00 00") = false.
Proof. reflexivity. Qed.

(** Every accepted phone value has ten to twelve digits and at most six
    other characters. *)
Lemma phone_length s :
  test phoneRegex s = true -> 10 <= length s <= 18.
Proof.
  intros H. apply RegExpFacts.test_Matches in H;
    [|exact RegExpFacts.phoneRegex_well_formed].
  unfold phoneRegex in H.
  repeat match goal with
         | H : Matches (_ :: _) _ |- _ =>
             let Hok := fresh "Hok" in
             inversion H as [|? ? ? ? _ Hok ?]; subst; clear H;
             destruct Hok as [? ?]
         | H : Matches [] _ |- _ => inversion H; subst; clear H
         end.
  rewrite !length_app. simpl in *. lia.
Qed.

(** The guard against a second submit is the disabled button: the handler
    itself, run in status [sending], would send again. *)
Lemma handleSubmit_itself_unguarded env c date :
  phone_ok (formData c) = true -> email_ok (formData c) = true ->
  sent (onSubmit env c date) = sent c ++ [request_of env (formData c) date].
Proof. intros Hp He. by rewrite (onSubmit_valid _ _ _ Hp He). Qed.

(** * The claims *)

(** C1, as stated, fails: the phone value ["+212 600 000 000"] of the
    scenario has four groups of three digits, and the pattern wants its
    last group to be four to six digits in a row.  The phone check fails,
    the email check is never reached, and submitting gives the
    phone-invalid error without any delivery call. *)
Lemma C1_scenario_phone_rejected :
  phone_ok jane = false /\
  result (validateForm jane) = false /\
  status (submit sample_env (showing jane) sample_date) = error /\
  errorMessage (submit sample_env (showing jane) sample_date)
    = "Numéro de téléphone invalide" /\
  sent (submit sample_env (showing jane) sample_date) = [].
Proof. repeat split; reflexivity. Qed.

(** C1, amended: with the last two groups written together
    (phone ["+212 600 000000"], the other five fields as in the scenario)
    both checks succeed, and a submit that the form accepts issues exactly
    one delivery call, whose [reply_to] is ["jane@example.com"]. *)
Theorem C1_scenario_ungrouped_phone env c date :
  formData c = jane_ungrouped ->
  status c <> sending ->
  phone_ok (formData c) = true /\
  email_ok (formData c) = true /\
  validateForm (formData c) = ([], true) /\
  exists request,
    sent (submit env c date) = sent c ++ [request] /\
    emailjs.templateParams request !! "reply_to"
      = Some (Some (str "jane@example.com")).
Proof.
  intros Hf Hs.
  assert (Hp : phone_ok (formData c) = true) by (rewrite Hf; reflexivity).
  assert (He : email_ok (formData c) = true) by (rewrite Hf; reflexivity).
  split; [exact Hp|]. split; [exact He|].
  split; [by apply validateForm_valid|].
  exists (request_of env (formData c) date). split.
  - rewrite submit_enabled by exact Hs. by rewrite onSubmit_valid.
  - rewrite reply_to_is_email, Hf. reflexivity.
Qed.

Lemma C1_scenario_ungrouped_phone_witness :
  exists request,
    sent (submit sample_env (showing jane_ungrouped) sample_date) = [request] /\
    emailjs.templateParams request !! "reply_to"
      = Some (Some (str "jane@example.com")).
Proof.
  apply (C1_scenario_ungrouped_phone sample_env (showing jane_ungrouped) sample_date).
  - reflexivity.
  - simpl. discriminate.
Defined.

(** C2: whenever the phone value fails the phone pattern, the submit
    handler leaves status [error] with the message
    ['Numéro de téléphone invalide'], and makes no delivery call: nothing
    is sent and no handler is left waiting for a reply.  This holds for
    the handler in every state, and so for every submit the form
    accepts. *)
Theorem C2_phone_invalid env c date :
  phone_ok (formData c) = false ->
  status (onSubmit env c date) = error /\
  errorMessage (onSubmit env c date) = "Numéro de téléphone invalide" /\
  sent (onSubmit env c date) = sent c /\
  awaiting (onSubmit env c date) = awaiting c /\
  result (handleSubmit env (formData c) date) = Return /\
  (status c <> sending -> submit env c date = onSubmit env c date).
Proof.
  intros Hp.
  pose proof (validateForm_phone_invalid _ Hp) as Hv.
  rewrite (onSubmit_rejected _ _ _ _ Hv), (handleSubmit_rejected _ _ _ _ Hv).
  simpl. repeat split; try reflexivity.
  intros Hs. rewrite submit_enabled by exact Hs.
  by rewrite (onSubmit_rejected _ _ _ _ Hv).
Qed.

Lemma C2_phone_invalid_witness :
  status (onSubmit sample_env (showing short_phone) sample_date) = error /\
  errorMessage (onSubmit sample_env (showing short_phone) sample_date)
    = "Numéro de téléphone invalide" /\
  sent (onSubmit sample_env (showing short_phone) sample_date) = [] /\
  awaiting (onSubmit sample_env (showing short_phone) sample_date) = [] /\
  result (handleSubmit sample_env short_phone sample_date) = Return /\
  submit sample_env (showing short_phone) sample_date
    = onSubmit sample_env (showing short_phone) sample_date.
Proof.
  destruct (C2_phone_invalid sample_env (showing short_phone) sample_date)
    as (H1 & H2 & H3 & H4 & H5 & H6); [reflexivity|].
  split; [exact H1|]. split; [exact H2|]. split; [exact H3|].
  split; [exact H4|]. split; [exact H5|].
  apply H6. simpl. discriminate.
Defined.

(** C3: whenever the phone value passes and the email value fails its
    pattern, the submit handler leaves status [error] with the message
    ['Email invalide'] and makes no delivery call.  The phone check comes
    first and one message only is produced: when the phone value fails,
    the validator's single message is the phone one, whatever the email
    value is. *)
Theorem C3_email_invalid env c date :
  (phone_ok (formData c) = true -> email_ok (formData c) = false ->
   effects (validateForm (formData c)) = [call (setErrorMessage "Email invalide")] /\
   status (onSubmit env c date) = error /\
   errorMessage (onSubmit env c date) = "Email invalide" /\
   sent (onSubmit env c date) = sent c /\
   awaiting (onSubmit env c date) = awaiting c /\
   (status c <> sending -> submit env c date = onSubmit env c date)) /\
  (phone_ok (formData c) = false ->
   effects (validateForm (formData c))
     = [call (setErrorMessage "Numéro de téléphone invalide")] /\
   errorMessage (onSubmit env c date) = "Numéro de téléphone invalide").
Proof.
  split.
  - intros Hp He.
    pose proof (validateForm_email_invalid _ Hp He) as Hv.
    rewrite (onSubmit_rejected _ _ _ _ Hv), Hv.
    simpl. repeat split; try reflexivity.
    intros Hs. rewrite submit_enabled by exact Hs.
    by rewrite (onSubmit_rejected _ _ _ _ Hv).
  - intros Hp.
    pose proof (validateForm_phone_invalid _ Hp) as Hv.
    rewrite (onSubmit_rejected _ _ _ _ Hv), Hv. split; reflexivity.
Qed.

Lemma C3_email_invalid_witness :
  (status (submit sample_env (showing bad_email) sample_date) = error /\
   errorMessage (submit sample_env (showing bad_email) sample_date)
     = "Email invalide" /\
   sent (submit sample_env (showing bad_email) sample_date) = []) /\
  errorMessage (onSubmit sample_env (showing bad_both) sample_date)
    = "Numéro de téléphone invalide".
Proof.
  split.
  - destruct (C3_email_invalid sample_env (showing bad_email) sample_date)
      as [H _].
    destruct H as (_ & H2 & H3 & H4 & _ & H6); [reflexivity | reflexivity |].
    rewrite H6 by (simpl; discriminate).
    split; [exact H2|]. split; [exact H3 | exact H4].
  - destruct (C3_email_invalid sample_env (showing bad_both) sample_date)
      as [_ H].
    destruct H as [_ H]; [reflexivity | exact H].
Defined.

(** ** States in which nothing is pending *)

Lemma advance_quiet c dt :
  quiet c -> quiet (advance c dt) /\ status (advance c dt) = status c /\
             errorMessage (advance c dt) = errorMessage c.
Proof.
  intros [Ht Ha]. rewrite (advance_no_timer _ _ Ht).
  unfold quiet. simpl. auto.
Qed.

(** Time alone changes nothing once no timer is pending. *)
Lemma waiting_quiet env c dts :
  quiet c ->
  status (after env c (List.map Advance dts)) = status c /\
  errorMessage (after env c (List.map Advance dts)) = errorMessage c.
Proof.
  revert c. induction dts as [|dt dts IH]; intros c Hq; simpl; [auto|].
  destruct (advance_quiet c dt Hq) as (Hq' & Hs & He).
  destruct (IH _ Hq') as [IHs IHe].
  unfold after in *. rewrite IHs, IHe. auto.
Qed.



(** C4 fails on the code.  A submit with phone ["123"] on a freshly
    mounted form sets status [error] and schedules no timer at all: the
    handler returns right after [setStatus('error')].  However much time
    passes, the status is still [error] and the message still shown. *)
Theorem C4_validation_error_is_not_reset env date dts :
  status (submit env (showing short_phone) date) = error /\
  timers (submit env (showing short_phone) date) = [] /\
  status (after env (submit env (showing short_phone) date)
            (List.map Advance dts)) = error /\
  errorMessage (after env (submit env (showing short_phone) date)
                  (List.map Advance dts)) = "Numéro de téléphone invalide".
Proof.
  assert (Hq : quiet (submit env (showing short_phone) date))
    by (split; reflexivity).
  destruct (waiting_quiet env _ dts Hq) as [Hs He].
  rewrite Hs, He. repeat split; reflexivity.
Qed.

(** C5 fails on the code for a reply that is not a fault.  When the
    promise is fulfilled with status 202 the handler does nothing more:
    the status is still [sending], no message is set and no timer is
    scheduled, however much time passes.  (A rejected promise does get the
    generic message and the timer: [settled_rejected].) *)
Theorem C5_fulfilled_202_leaves_sending env date dts :
  let c := settle (submit env (showing jane_ungrouped) date) 0 (accepted 202) in
  status c = sending /\
  errorMessage c = "" /\
  timers c = [] /\
  formData c = jane_ungrouped /\
  status (after env c (List.map Advance dts)) = sending.
Proof.
  intros c.
  assert (Hq : quiet c) by (split; reflexivity).
  destruct (waiting_quiet env _ dts Hq) as [Hs _].
  rewrite Hs. repeat split; reflexivity.
Qed.

Lemma emptyForm_fields :
  Forall (fun name => emptyForm !! name = Some []) field_names.
Proof. repeat constructor. Qed.

(** C6: when the awaited call is fulfilled with status 200, the handler
    sets all six fields to the empty string, sets status [success], and
    schedules one timer, due 5000 ms later, whose callback sets status
    [idle]; once that delay has passed the status is [idle]. *)
Theorem C6_acknowledged c i response :
  awaiting c !! i = Some handleSubmit_settled ->
  emailjs.status response = 200%Z ->
  formData (settle c i (emailjs.Fulfilled response)) = emptyForm /\
  (forall name, In name field_names ->
     formData (settle c i (emailjs.Fulfilled response)) !! name = Some []) /\
  status (settle c i (emailjs.Fulfilled response)) = success /\
  timers (settle c i (emailjs.Fulfilled response))
    = schedule {| due := (clock c + 5000)%N; callback := [setStatus idle] |}
        (timers c) /\
  status (advance (settle c i (emailjs.Fulfilled response)) 5000) = idle.
Proof.
  intros Hk Hs. unfold settle. rewrite Hk, (settled_ok _ Hs). simpl.
  split; [reflexivity|]. split.
  - intros name Hn. pose proof emptyForm_fields as HF.
    rewrite Forall_forall in HF. apply HF. by apply list_elem_of_In.
  - split; [reflexivity|]. split; [reflexivity|].
    exact (advance_scheduled_status
             {| formData := emptyForm; status := success;
                errorMessage := errorMessage c; clock := clock c;
                timers := timers c; sent := sent c;
                awaiting := delete i (awaiting c); console := console c |}
             [] 5000).
Qed.

Lemma C6_acknowledged_witness :
  formData (settle (submit sample_env (showing jane_ungrouped) sample_date) 0
              (accepted 200)) = emptyForm /\
  status (settle (submit sample_env (showing jane_ungrouped) sample_date) 0
            (accepted 200)) = success /\
  status (advance (settle (submit sample_env (showing jane_ungrouped) sample_date) 0
                     (accepted 200)) 5000) = idle.
Proof.
  destruct (C6_acknowledged
              (submit sample_env (showing jane_ungrouped) sample_date) 0
              {| emailjs.status := 200; emailjs.text := str "OK" |})
    as (H1 & _ & H3 & _ & H5); [reflexivity | reflexivity |].
  split; [exact H1|]. split; [exact H3 | exact H5].
Defined.

(** C7: when both checks pass, a submit that the form accepts makes
    exactly one delivery call (one request more in [sent], one handler more
    waiting for its reply) and moves to [sending]; a submit while the
    status is [sending] changes nothing at all, because the button is
    disabled then. *)
Theorem C7_one_call_per_submit env c date :
  (phone_ok (formData c) = true -> email_ok (formData c) = true ->
   status c <> sending ->
   sent (submit env c date) = sent c ++ [request_of env (formData c) date] /\
   length (sent (submit env c date)) = S (length (sent c)) /\
   awaiting (submit env c date) = awaiting c ++ [handleSubmit_settled] /\
   status (submit env c date) = sending) /\
  (status c = sending -> submit env c date = c).
Proof.
  split.
  - intros Hp He Hs.
    rewrite submit_enabled by exact Hs. rewrite (onSubmit_valid _ _ _ Hp He).
    simpl. rewrite length_app. simpl.
    repeat split; try reflexivity. lia.
  - intros Hs. unfold submit.
    apply disabled_true in Hs. by rewrite Hs.
Qed.

Lemma C7_one_call_per_submit_witness :
  length (sent (submit sample_env (showing jane_ungrouped) sample_date)) = 1 /\
  submit sample_env (submit sample_env (showing jane_ungrouped) sample_date)
    sample_date
  = submit sample_env (showing jane_ungrouped) sample_date.
Proof.
  split.
  - destruct (C7_one_call_per_submit sample_env (showing jane_ungrouped)
                sample_date) as [H _].
    destruct H as (_ & H & _); [reflexivity | reflexivity | simpl; discriminate |].
    exact H.
  - destruct (C7_one_call_per_submit sample_env
                (submit sample_env (showing jane_ungrouped) sample_date)
                sample_date) as [_ H].
    apply H. reflexivity.
Defined.

(** C8: for every field state, every name (the six field names among
    them) and every new value, the handler's only effect is one
    [setFormData] whose result holds the new value under that name and
    the old value under every other name; status, message, timers and
    calls are untouched and no check is run. *)
Theorem C8_update_one_field c name value :
  effects (handleChange name value)
    = [call (setFormDataWith (fun prev => <[name := value]> prev))] /\
  formData (onChange c name value) !! name = Some value /\
  (forall other, other <> name ->
     formData (onChange c name value) !! other = formData c !! other) /\
  status (onChange c name value) = status c /\
  errorMessage (onChange c name value) = errorMessage c /\
  timers (onChange c name value) = timers c /\
  sent (onChange c name value) = sent c /\
  awaiting (onChange c name value) = awaiting c /\
  (status c <> sending -> change c name value = onChange c name value).
Proof.
  split; [reflexivity|]. split; [apply lookup_insert_eq|]. split.
  - intros other Hne. simpl. apply lookup_insert_ne. congruence.
  - repeat split. intros Hs. unfold change.
    destruct (disabled c) eqn:Hd; [|reflexivity].
    apply disabled_true in Hd. contradiction.
Qed.

Lemma C8_update_one_field_witness :
  formData (change (showing jane) "email" (str "j@doe.ma")) !! "email"
    = Some (str "j@doe.ma") /\
  formData (change (showing jane) "email" (str "j@doe.ma")) !! "phone"
    = jane !! "phone".
Proof.
  destruct (C8_update_one_field (showing jane) "email" (str "j@doe.ma"))
    as (_ & H2 & H3 & _ & _ & _ & _ & _ & H9).
  rewrite H9 by (simpl; discriminate).
  split; [exact H2|]. apply H3. discriminate.
Defined.




(** ** The stylesheet injection *)

Module DOMFacts.

Import DOM.

Lemma count_after_append (f : Element -> bool) d child :
  shallow f ->
  length (List.filter f (all_elements (head_appendChild d child)))
  = length (List.filter f (all_elements d))
    + length (List.filter f (elements child)).
Proof.
  intros Hf. unfold all_elements, head_appendChild. simpl.
  destruct (head d) as [n i t ch]. simpl.
  rewrite (Hf n i t (ch ++ [child]) ch).
  rewrite flat_map_app. simpl. rewrite app_nil_r.
  destruct (f (Elem n i t ch)); simpl;
    rewrite !List.filter_app, !length_app; lia.
Qed.

Lemma getElementById_None d i :
  getElementById d i = None <->
  length (List.filter (fun e => String.eqb (id e) i) (all_elements d)) = 0.
Proof.
  unfold getElementById. generalize (all_elements d) as l.
  induction l as [|e l IH]; simpl; [tauto|].
  destruct (String.eqb (id e) i); simpl; [split; discriminate | exact IH].
Qed.

Lemma filter_and_length {A} (f g : A -> bool) (l : list A) :
  length (List.filter (fun x => f x && g x) l) <= length (List.filter g l).
Proof.
  induction l as [|x l IH]; simpl; [lia|].
  destruct (f x), (g x); simpl; lia.
Qed.

Lemma by_id_shallow i : shallow (fun e => String.eqb (id e) i).
Proof. intros n j t ch ch'. reflexivity. Qed.

Lemma style_by_id_shallow i :
  shallow (fun e => String.eqb (localName e) "style" && String.eqb (id e) i).
Proof. intros n j t ch ch'. reflexivity. Qed.

End DOMFacts.

Lemma inject_styles_found d e :
  DOM.getElementById d "contact-form-styles" = Some e ->
  inject_styles (Some d) = Some d.
Proof. unfold inject_styles. intros ->. reflexivity. Qed.

Lemma inject_styles_fresh d :
  DOM.getElementById d "contact-form-styles" = None ->
  inject_styles (Some d) =
    Some (DOM.head_appendChild d
            (DOM.createElement "style" "contact-form-styles" styles)) /\
  marked_elements
    (DOM.head_appendChild d
       (DOM.createElement "style" "contact-form-styles" styles)) = 1 /\
  marked_styles
    (DOM.head_appendChild d
       (DOM.createElement "style" "contact-form-styles" styles)) = 1.
Proof.
  intros Hnone. split; [unfold inject_styles; by rewrite Hnone|].
  pose proof (proj1 (DOMFacts.getElementById_None _ _) Hnone) as H0.
  pose proof (DOMFacts.filter_and_length
                (fun e => String.eqb (DOM.localName e) "style")
                (fun e => String.eqb (DOM.id e) "contact-form-styles")
                (DOM.all_elements d)) as Hle.
  unfold marked_elements, marked_styles.
  rewrite (DOMFacts.count_after_append _ _ _
             (DOMFacts.by_id_shallow "contact-form-styles")).
  rewrite (DOMFacts.count_after_append _ _ _
             (DOMFacts.style_by_id_shallow "contact-form-styles")).
  cbv beta in Hle. simpl. lia.
Qed.

(** C9, as stated, fails: on a page where another element already carries
    the id, the guard finds it and nothing is injected, on the first run as
    on the second; the document then holds no [style] element with the
    marker id, not one. *)
Lemma C9_marker_taken_by_other_element :
  inject_styles (inject_styles (Some clashing_document))
    = Some clashing_document /\
  marked_styles <$> inject_styles (inject_styles (Some clashing_document))
    = Some 0 /\
  marked_styles <$> inject_styles (inject_styles (Some clashing_document))
    <> Some 1.
Proof. split; [reflexivity|]. split; [reflexivity | discriminate]. Qed.

(** C9, amended: the injection is idempotent on every document state
    (run twice it leaves the document that one run leaves), it never adds
    anything to a document that already holds an element with the marker
    id, and from a document holding no element with the marker id, one
    run and two runs both leave exactly one element with that id, which is
    a [style] element. *)
Theorem C9_inject_styles_idempotent window :
  inject_styles (inject_styles window) = inject_styles window /\
  (forall d e,
     window = Some d ->
     DOM.getElementById d "contact-form-styles" = Some e ->
     inject_styles window = Some d) /\
  (forall d,
     window = Some d ->
     DOM.getElementById d "contact-form-styles" = None ->
     exists d',
       inject_styles window = Some d' /\
       inject_styles (inject_styles window) = Some d' /\
       marked_elements d' = 1 /\ marked_styles d' = 1).
Proof.
  assert (Hidem : inject_styles (inject_styles window) = inject_styles window).
  { destruct window as [d|]; [|reflexivity].
    destruct (DOM.getElementById d "contact-form-styles") as [e|] eqn:Hget.
    - by rewrite !(inject_styles_found _ _ Hget).
    - destruct (inject_styles_fresh d Hget) as (-> & Hone & _).
      destruct (DOM.getElementById
                  (DOM.head_appendChild d
                     (DOM.createElement "style" "contact-form-styles" styles))
                  "contact-form-styles") as [e|] eqn:Hget'.
      + exact (inject_styles_found _ _ Hget').
      + apply DOMFacts.getElementById_None in Hget'.
        unfold marked_elements in Hone. lia. }
  split; [exact Hidem|]. split.
  - intros d e -> Hget. exact (inject_styles_found _ _ Hget).
  - intros d -> Hget.
    destruct (inject_styles_fresh d Hget) as (Hinj & Hone & Hstyle).
    eexists. split; [exact Hinj|]. split; [by rewrite Hidem|].
    split; assumption.
Qed.

Lemma C9_inject_styles_idempotent_witness :
  marked_styles <$> inject_styles (inject_styles (Some plain_document)) = Some 1.
Proof.
  destruct (C9_inject_styles_idempotent (Some plain_document)) as (_ & _ & H).
  destruct (H plain_document eq_refl) as (d' & _ & -> & _ & Hs); [reflexivity|].
  simpl. by rewrite Hs.
Defined.


(** * Further properties of the form *)

(** ** The two patterns *)

Ltac bool_hyps :=
  repeat match goal with
    | H : false = true |- _ => discriminate H
    | H : (_ || _) = true |- _ => apply orb_true_iff in H; destruct H
    | H : (_ && _) = true |- _ => apply andb_true_iff in H; destruct H
    | H : negb _ = true |- _ => apply negb_true_iff in H
    | H : (_ || _) = false |- _ => apply orb_false_iff in H; destruct H
    | H : N.eqb _ _ = true |- _ => apply N.eqb_eq in H
    | H : N.leb _ _ = true |- _ => apply N.leb_le in H
    | H : N.eqb _ _ = false |- _ => apply N.eqb_neq in H
    | H : N.leb _ _ = false |- _ => apply N.leb_gt in H
    end.

Ltac bool_goal :=
  repeat first
    [ rewrite orb_true_iff | rewrite andb_true_iff | rewrite N.eqb_eq
    | rewrite N.leb_le | rewrite negb_true_iff | rewrite orb_false_iff
    | rewrite andb_false_iff | rewrite N.eqb_neq | rewrite N.leb_gt ].

Ltac classes :=
  unfold digit, plain, phone_char, one_of, none_of, char, range, white_space in *;
  simpl in *; bool_hyps; bool_goal; try lia.


Lemma length_one {A} (l : list A) : 1 <= length l -> length l <= 1 -> exists x, l = [x].
Proof. destruct l as [|x [|y l]]; simpl; intros; try lia. by exists x. Qed.

Lemma nonempty_length {A} (l : list A) : l <> [] <-> 1 <= length l.
Proof. destruct l; simpl; split; intros; try congruence; try lia. Qed.

Lemma email_blocks s :
  test emailRegex s = true ->
  exists l d t,
    s = l ++ str "@" ++ d ++ str "." ++ t /\
    l <> [] /\ d <> [] /\ t <> [] /\
    Forall (fun c => plain c = true) l /\
    Forall (fun c => plain c = true) d /\
    Forall (fun c => plain c = true) t.
Proof.
  intros H. apply RegExpFacts.test_Matches in H;
    [|exact RegExpFacts.emailRegex_well_formed].
  unfold emailRegex in H.
  inversion H as [|t1 p1 b1 r1 A1 [L1 U1] M1]; subst; clear H.
  inversion M1 as [|t2 p2 b2 r2 A2 [L2 U2] M2]; subst; clear M1.
  inversion M2 as [|t3 p3 b3 r3 A3 [L3 U3] M3]; subst; clear M2.
  inversion M3 as [|t4 p4 b4 r4 A4 [L4 U4] M4]; subst; clear M3.
  inversion M4 as [|t5 p5 b5 r5 A5 [L5 U5] M5]; subst; clear M4.
  inversion M5; subst; clear M5.
  simpl in L1, L2, U2, L3, L4, U4, L5, A1, A2, A3, A4, A5.
  destruct (length_one b2 L2 U2) as [at_ ->].
  destruct (length_one b4 L4 U4) as [dot ->].
  rewrite Forall_singleton in A2. rewrite Forall_singleton in A4.
  apply N.eqb_eq in A2, A4. subst at_ dot.
  exists b1, b3, b5. rewrite app_nil_r.
  split; [reflexivity|].
  repeat split; try assumption; by apply nonempty_length.
Qed.

(** [emailRegex.test] accepts exactly the strings of the form
    [local@domain.tld]: three non-empty runs of characters that are
    neither white space nor ["@"], the first two separated by one ["@"]
    and the last two by one ["."]. *)
Theorem email_shape s :
  test emailRegex s = true <->
  exists l d t,
    s = l ++ str "@" ++ d ++ str "." ++ t /\
    l <> [] /\ d <> [] /\ t <> [] /\
    Forall (fun c => plain c = true) (l ++ d ++ t).
Proof.
  split.
  - intros H. destruct (email_blocks s H) as (l & d & t & -> & Hl & Hd & Ht & Al & Ad & At).
    exists l, d, t. repeat split; try assumption.
    rewrite !Forall_app. auto.
  - intros (l & d & t & -> & Hl & Hd & Ht & Hall).
    rewrite !Forall_app in Hall. destruct Hall as (Al & Ad & At).
    apply RegExpFacts.test_Matches; [exact RegExpFacts.emailRegex_well_formed|].
    apply nonempty_length in Hl, Hd, Ht.
    unfold emailRegex.
    constructor; [exact Al | split; [exact Hl | exact I] |].
    constructor; [by repeat constructor | split; simpl; lia |].
    constructor; [exact Ad | split; [exact Hd | exact I] |].
    constructor; [by repeat constructor | split; simpl; lia |].
    rewrite <- (app_nil_r t).
    constructor; [exact At | split; [exact Ht | exact I] |].
    constructor.
Qed.

Lemma email_shape_witness :
  exists l d t,
    str "jane@example.com" = l ++ str "@" ++ d ++ str "." ++ t /\
    l <> [] /\ d <> [] /\ t <> [] /\
    Forall (fun c => plain c = true) (l ++ d ++ t).
Proof. apply (email_shape (str "jane@example.com")). reflexivity. Defined.

Lemma count_app a s1 s2 : count a (s1 ++ s2) = count a s1 + count a s2.
Proof. unfold count. by rewrite List.filter_app, length_app. Qed.

Lemma count_none (a b : atom) s :
  (forall c, a c = true -> b c = false) ->
  Forall (fun c => a c = true) s -> count b s = 0.
Proof.
  intros Hab. unfold count. induction 1 as [|c s Hc _ IH]; simpl; [reflexivity|].
  by rewrite (Hab c Hc).
Qed.

Lemma count_all (a : atom) s :
  Forall (fun c => a c = true) s -> count a s = length s.
Proof.
  unfold count. induction 1 as [|c s Hc _ IH]; simpl; [reflexivity|].
  rewrite Hc. simpl. by rewrite IH.
Qed.

Lemma plain_not_at c : plain c = true -> char "@" c = false.
Proof. intros H. classes. Qed.

Lemma plain_not_white_space c : plain c = true -> white_space c = false.
Proof. intros H. unfold plain, none_of, one_of in H. simpl in H.
  apply negb_true_iff in H. apply orb_false_iff in H. tauto. Qed.

(** An accepted email value holds exactly one ["@"], no white space, and
    at least five characters. *)
Theorem email_one_at_no_space s :
  test emailRegex s = true ->
  count (char "@") s = 1 /\ count white_space s = 0 /\ 5 <= length s.
Proof.
  intros H. destruct (email_blocks s H) as (l & d & t & -> & Hl & Hd & Ht & Al & Ad & At).
  apply nonempty_length in Hl, Hd, Ht.
  rewrite !count_app, !length_app.
  rewrite (count_none plain (char "@") l plain_not_at Al),
    (count_none plain (char "@") d plain_not_at Ad),
    (count_none plain (char "@") t plain_not_at At),
    (count_none plain white_space l plain_not_white_space Al),
    (count_none plain white_space d plain_not_white_space Ad),
    (count_none plain white_space t plain_not_white_space At).
  change (length (str "@")) with 1. change (length (str ".")) with 1.
  repeat split; try reflexivity. lia.
Qed.

Lemma email_one_at_no_space_witness :
  count (char "@") (str "jane@example.com") = 1 /\
  count white_space (str "jane@example.com") = 0 /\
  5 <= length (str "jane@example.com").
Proof. apply (email_one_at_no_space (str "jane@example.com")). reflexivity. Defined.

Lemma Forall_class_impl (a b : atom) s :
  (forall c, a c = true -> b c = true) ->
  Forall (fun c => a c = true) s -> Forall (fun c => b c = true) s.
Proof. intros Hab Hs. by eapply Forall_impl. Qed.

Lemma phone_blocks s :
  test phoneRegex s = true ->
  exists sign open d1 close sep1 d2 sep2 d3,
    s = sign ++ open ++ d1 ++ close ++ sep1 ++ d2 ++ sep2 ++ d3 /\
    Forall (fun c => char "+" c = true) sign /\ length sign <= 1 /\
    Forall (fun c => char "(" c = true) open /\ length open <= 1 /\
    Forall (fun c => digit c = true) d1 /\ length d1 = 3 /\
    Forall (fun c => char ")" c = true) close /\ length close <= 1 /\
    Forall (fun c => one_of [char "-"; white_space; char "."] c = true) sep1 /\
    length sep1 <= 1 /\
    Forall (fun c => digit c = true) d2 /\ length d2 = 3 /\
    Forall (fun c => one_of [char "-"; white_space; char "."] c = true) sep2 /\
    length sep2 <= 1 /\
    Forall (fun c => digit c = true) d3 /\ 4 <= length d3 <= 6.
Proof.
  intros H. apply RegExpFacts.test_Matches in H;
    [|exact RegExpFacts.phoneRegex_well_formed].
  unfold phoneRegex in H.
  inversion H as [|t1 p1 b1 r1 A1 [L1 U1] M1]; subst; clear H.
  inversion M1 as [|t2 p2 b2 r2 A2 [L2 U2] M2]; subst; clear M1.
  inversion M2 as [|t3 p3 b3 r3 A3 [L3 U3] M3]; subst; clear M2.
  inversion M3 as [|t4 p4 b4 r4 A4 [L4 U4] M4]; subst; clear M3.
  inversion M4 as [|t5 p5 b5 r5 A5 [L5 U5] M5]; subst; clear M4.
  inversion M5 as [|t6 p6 b6 r6 A6 [L6 U6] M6]; subst; clear M5.
  inversion M6 as [|t7 p7 b7 r7 A7 [L7 U7] M7]; subst; clear M6.
  inversion M7 as [|t8 p8 b8 r8 A8 [L8 U8] M8]; subst; clear M7.
  inversion M8; subst; clear M8.
  simpl in L1, U1, L2, U2, L3, U3, L4, U4, L5, U5, L6, U6, L7, U7, L8, U8.
  exists b1, b2, b3, b4, b5, b6, b7, b8. rewrite app_nil_r.
  split; [reflexivity|].
  assert (Hone : forall a c, one_of [a] c = true -> a c = true).
  { intros a c Hc. unfold one_of in Hc. simpl in Hc.
    by rewrite orb_false_r in Hc. }
  split; [exact (Forall_class_impl _ _ _ (Hone _) A1)|]. split; [exact U1|].
  split; [exact (Forall_class_impl _ _ _ (Hone _) A2)|]. split; [exact U2|].
  split; [exact A3|]. split; [lia|].
  split; [exact (Forall_class_impl _ _ _ (Hone _) A4)|]. split; [exact U4|].
  split; [exact A5|]. split; [exact U5|].
  split; [exact A6|]. split; [lia|].
  split; [exact A7|]. split; [exact U7|].
  split; [exact A8|]. lia.
Qed.

Lemma sign_phone_char c : char "+" c = true -> phone_char c = true.
Proof. intros H. classes. Qed.
Lemma open_phone_char c : char "(" c = true -> phone_char c = true.
Proof. intros H. classes. Qed.
Lemma close_phone_char c : char ")" c = true -> phone_char c = true.
Proof. intros H. classes. Qed.
Lemma digit_phone_char c : digit c = true -> phone_char c = true.
Proof. intros H. classes. Qed.
Lemma sep_phone_char c :
  one_of [char "-"; white_space; char "."] c = true -> phone_char c = true.
Proof.
  unfold phone_char, one_of. cbn [existsb]. intros H.
  destruct (char "-" c), (white_space c), (char "." c);
    try discriminate H; cbn [orb]; rewrite ?orb_true_r; reflexivity.
Qed.

Lemma sign_not_digit c : char "+" c = true -> digit c = false.
Proof. intros H. classes. Qed.
Lemma open_not_digit c : char "(" c = true -> digit c = false.
Proof. intros H. classes. Qed.
Lemma close_not_digit c : char ")" c = true -> digit c = false.
Proof. intros H. classes. Qed.
Lemma sep_not_digit c :
  one_of [char "-"; white_space; char "."] c = true -> digit c = false.
Proof. intros H. classes. Qed.

(** An accepted phone value is made of digits, ["+"], parentheses,
    ["-"], ["."] and white space only; it holds ten to twelve digits and at
    most six other characters. *)
Theorem phone_digits_and_characters s :
  test phoneRegex s = true ->
  Forall (fun c => phone_char c = true) s /\
  10 <= count digit s <= 12 /\
  length s <= count digit s + 6.
Proof.
  intros H.
  destruct (phone_blocks s H)
    as (b1 & b2 & b3 & b4 & b5 & b6 & b7 & b8 & -> &
        A1 & U1 & A2 & U2 & A3 & L3 & A4 & U4 & A5 & U5 & A6 & L6 &
        A7 & U7 & A8 & L8).
  split.
  - rewrite !Forall_app.
    repeat split;
      eauto using Forall_class_impl, sign_phone_char, open_phone_char,
        close_phone_char, digit_phone_char, sep_phone_char.
  - rewrite !count_app, !length_app.
    rewrite (count_none _ digit b1 sign_not_digit A1),
      (count_none _ digit b2 open_not_digit A2),
      (count_none _ digit b4 close_not_digit A4),
      (count_none _ digit b5 sep_not_digit A5),
      (count_none _ digit b7 sep_not_digit A7),
      (count_all digit b3 A3), (count_all digit b6 A6), (count_all digit b8 A8).
    lia.
Qed.

Lemma phone_digits_and_characters_witness :
  Forall (fun c => phone_char c = true) (str "+212 600 000000") /\
  10 <= count digit (str "+212 600 000000") <= 12 /\
  length (str "+212 600 000000") <= count digit (str "+212 600 000000") + 6.
Proof.
  apply (phone_digits_and_characters (str "+212 600 000000")). reflexivity.
Defined.

(** Ten to twelve digits written without any separator are an accepted
    phone value. *)
Theorem phone_plain_digits_accepted s :
  Forall (fun c => digit c = true) s -> 10 <= length s <= 12 ->
  test phoneRegex s = true.
Proof.
  intros Hall Hlen.
  apply RegExpFacts.test_Matches; [exact RegExpFacts.phoneRegex_well_formed|].
  assert (Hs : s = [] ++ [] ++ take 3 s ++ [] ++ [] ++ take 3 (drop 3 s) ++ []
                   ++ drop 3 (drop 3 s) ++ []).
  { simpl. by rewrite app_nil_r, !take_drop. }
  rewrite Hs. unfold phoneRegex.
  repeat (constructor;
          [ simpl; first [ by apply Forall_nil
                         | by apply Forall_take
                         | by apply Forall_take, Forall_drop
                         | by apply Forall_drop, Forall_drop ]
          | split; simpl; rewrite ?length_take, ?length_drop; lia | ]).
  constructor.
Qed.

Lemma phone_plain_digits_accepted_witness :
  test phoneRegex (str "0612345678") = true.
Proof.
  apply (phone_plain_digits_accepted (str "0612345678")).
  - repeat constructor.
  - simpl. lia.
Defined.

(** ** What no handler touches *)
Lemma apply_setter_frame c s :
  clock (apply_setter c s) = clock c /\ timers (apply_setter c s) = timers c /\
  sent (apply_setter c s) = sent c /\ awaiting (apply_setter c s) = awaiting c /\
  console (apply_setter c s) = console c.
Proof. destruct s; simpl; auto. Qed.

Lemma apply_effect_frame c e :
  clock (apply_effect c e) = clock c /\
  sent (apply_effect c e) = sent c /\ awaiting (apply_effect c e) = awaiting c.
Proof.
  destruct e as [|s|cb ms|label reason]; simpl; auto.
  destruct (apply_setter_frame c s) as (? & ? & ? & ? & ?). auto.
Qed.

Lemma run_frame es : forall c,
  clock (run c es) = clock c /\
  sent (run c es) = sent c /\ awaiting (run c es) = awaiting c.
Proof.
  unfold run. induction es as [|e es IH]; intros c; simpl; [auto|].
  destruct (IH (apply_effect c e)) as (-> & -> & ->).
  apply apply_effect_frame.
Qed.

Lemma fire_frame c t :
  clock (fire c t) = clock c /\ timers (fire c t) = timers c /\
  sent (fire c t) = sent c /\ awaiting (fire c t) = awaiting c /\
  console (fire c t) = console c.
Proof.
  unfold fire. generalize (callback t) as cb. intros cb. revert c.
  induction cb as [|s cb IH]; intros c; simpl; [auto 6|].
  destruct (IH (apply_setter c s)) as (-> & -> & -> & -> & ->).
  apply apply_setter_frame.
Qed.

Lemma fires_frame ts : forall c,
  clock (fold_left fire ts c) = clock c /\ timers (fold_left fire ts c) = timers c /\
  sent (fold_left fire ts c) = sent c /\ awaiting (fold_left fire ts c) = awaiting c /\
  console (fold_left fire ts c) = console c.
Proof.
  induction ts as [|t ts IH]; intros c; simpl; [auto 6|].
  destruct (IH (fire c t)) as (-> & -> & -> & -> & ->).
  apply fire_frame.
Qed.

Lemma advance_frame c dt :
  clock (advance c dt) = (clock c + dt)%N /\
  timers (advance c dt) = snd (expired (clock c + dt) (timers c)) /\
  sent (advance c dt) = sent c /\ awaiting (advance c dt) = awaiting c.
Proof.
  unfold advance.
  destruct (fires_frame (fst (expired (clock c + dt) (timers c)))
    {| formData := formData c; status := status c;
       errorMessage := errorMessage c;
       clock := (clock c + dt)%N; timers := snd (expired (clock c + dt) (timers c));
       sent := sent c; awaiting := awaiting c; console := console c |})
    as (-> & -> & -> & -> & _).
  simpl. auto.
Qed.

Lemma settle_sent c i outcome : sent (settle c i outcome) = sent c.
Proof.
  unfold settle. destruct (awaiting c !! i) as [k|]; [|reflexivity].
  by destruct (run_frame (effects (k outcome))
    {| formData := formData c; status := status c;
       errorMessage := errorMessage c; clock := clock c; timers := timers c;
       sent := sent c; awaiting := delete i (awaiting c);
       console := console c |}) as (_ & -> & _).
Qed.

Lemma change_frame c name value :
  status (change c name value) = status c /\
  errorMessage (change c name value) = errorMessage c /\
  clock (change c name value) = clock c /\
  timers (change c name value) = timers c /\
  sent (change c name value) = sent c /\
  awaiting (change c name value) = awaiting c.
Proof. unfold change. destruct (disabled c); simpl; auto 7. Qed.

(** The three ways a submit can go. *)
Lemma submit_cases env c date :
  (status c = sending /\ submit env c date = c) \/
  (status c <> sending /\ phone_ok (formData c) = false /\
   submit env c date =
     {| formData := formData c; status := error;
        errorMessage := "Numéro de téléphone invalide";
        clock := clock c; timers := timers c; sent := sent c;
        awaiting := awaiting c; console := console c |}) \/
  (status c <> sending /\ phone_ok (formData c) = true /\
   email_ok (formData c) = false /\
   submit env c date =
     {| formData := formData c; status := error;
        errorMessage := "Email invalide";
        clock := clock c; timers := timers c; sent := sent c;
        awaiting := awaiting c; console := console c |}) \/
  (status c <> sending /\ phone_ok (formData c) = true /\
   email_ok (formData c) = true /\
   submit env c date =
     {| formData := formData c; status := sending; errorMessage := "";
        clock := clock c; timers := timers c;
        sent := sent c ++ [request_of env (formData c) date];
        awaiting := awaiting c ++ [handleSubmit_settled];
        console := console c |}).
Proof.
  destruct (disabled c) eqn:Hd.
  - left. split; [by apply disabled_true|]. unfold submit. by rewrite Hd.
  - right.
    assert (Hs : status c <> sending).
    { intros Hs. apply disabled_true in Hs. congruence. }
    rewrite (submit_enabled _ _ _ Hs).
    destruct (phone_ok (formData c)) eqn:Hp; [destruct (email_ok (formData c)) eqn:He|].
    + right. right. repeat split; auto. by apply onSubmit_valid.
    + right. left. repeat split; auto.
      apply onSubmit_rejected. by apply validateForm_email_invalid.
    + left. repeat split; auto.
      apply onSubmit_rejected. by apply validateForm_phone_invalid.
Qed.

(** [validateForm] looks at the phone and email fields only: writing or
    removing any other field changes neither its result nor its message. *)
Theorem validator_ignores_other_fields (fields : FormData) name value :
  name <> "phone" -> name <> "email" ->
  validateForm (<[name := value]> fields) = validateForm fields /\
  validateForm (delete name fields) = validateForm fields.
Proof.
  intros Hp He. unfold validateForm.
  rewrite !lookup_insert_ne, !lookup_delete_ne by congruence. auto.
Qed.

Lemma validator_ignores_other_fields_witness :
  validateForm (<["firstname" := []]> jane_ungrouped) = validateForm jane_ungrouped /\
  validateForm (delete "firstname" jane_ungrouped) = validateForm jane_ungrouped.
Proof.
  apply (validator_ignores_other_fields jane_ungrouped "firstname" []);
    discriminate.
Defined.

Lemma phone_length_tight s :
  test phoneRegex s = true -> 10 <= length s <= 17.
Proof.
  intros H.
  destruct (phone_blocks s H)
    as (b1 & b2 & b3 & b4 & b5 & b6 & b7 & b8 & -> &
        _ & U1 & _ & U2 & _ & L3 & _ & U4 & _ & U5 & _ & L6 &
        _ & U7 & _ & L8).
  rewrite !length_app. lia.
Qed.

(** Both bounds are reached. *)
Example phone_of_length_10 : test phoneRegex (str "0612345678") = true.
Proof. reflexivity. Qed.

Example phone_of_length_17 : test phoneRegex (str "+(212) 600-000000") = true.
Proof. reflexivity. Qed.

(** A phone value shorter than 10 or longer than 17 characters fails the
    phone check, so the submit handler run on it gives status [error] with
    the phone message, sends nothing, awaits nothing and schedules
    nothing. *)
Theorem phone_length_out_of_bounds_rejected env c date :
  length (ToString (formData c !! "phone")) < 10 \/
  17 < length (ToString (formData c !! "phone")) ->
  phone_ok (formData c) = false /\
  status (onSubmit env c date) = error /\
  errorMessage (onSubmit env c date) = "Numéro de téléphone invalide" /\
  sent (onSubmit env c date) = sent c /\
  awaiting (onSubmit env c date) = awaiting c /\
  timers (onSubmit env c date) = timers c.
Proof.
  intros Hb.
  assert (Hp : phone_ok (formData c) = false).
  { unfold phone_ok.
    destruct (test phoneRegex (ToString (formData c !! "phone"))) eqn:Ht;
      [|reflexivity].
    apply phone_length_tight in Ht. lia. }
  split; [exact Hp|].
  rewrite (onSubmit_rejected _ _ _ _ (validateForm_phone_invalid _ Hp)).
  simpl. auto.
Qed.

Lemma phone_length_out_of_bounds_rejected_witness :
  status (onSubmit sample_env (showing short_phone) sample_date) = error /\
  sent (onSubmit sample_env
          (showing (form "Jane" "Doe" "jane@example.com"
                      "+212 (0) 600 000 000" "Autre" ""))
          sample_date) = [].
Proof.
  split.
  - apply (phone_length_out_of_bounds_rejected sample_env (showing short_phone)
             sample_date).
    left. vm_compute. lia.
  - apply (phone_length_out_of_bounds_rejected sample_env
             (showing (form "Jane" "Doe" "jane@example.com"
                         "+212 (0) 600 000 000" "Autre" ""))
             sample_date).
    right. vm_compute. lia.
Defined.

(** The one request of an accepted submit of a valid form carries the
    configured service and template ids, the date, the fixed recipient,
    the email field as reply-to address, and every field of the form under
    its own name; a field called [date], [to_email] or [reply_to] is
    overwritten. *)
Theorem payload_of_accepted_submit env c date :
  phone_ok (formData c) = true -> email_ok (formData c) = true ->
  status c <> sending ->
  exists request,
    sent (submit env c date) = sent c ++ [request] /\
    emailjs.serviceID request = PUBLIC_EMAILJS_SERVICE_ID env /\
    emailjs.templateID request = PUBLIC_EMAILJS_TEMPLATE_ID env /\
    emailjs.templateParams request !! "date" = Some (Some date) /\
    emailjs.templateParams request !! "to_email"
      = Some (Some (str "contact@evakech.com")) /\
    emailjs.templateParams request !! "reply_to" = Some (formData c !! "email") /\
    (forall key, key <> "date" -> key <> "to_email" -> key <> "reply_to" ->
       emailjs.templateParams request !! key = Some <$> (formData c !! key)).
Proof.
  intros Hp He Hs. exists (request_of env (formData c) date).
  rewrite (submit_enabled _ _ _ Hs), (onSubmit_valid _ _ _ Hp He). simpl.
  split; [reflexivity|]. split; [reflexivity|]. split; [reflexivity|].
  split; [by rewrite lookup_insert_ne, lookup_insert_ne, lookup_insert_eq|].
  split; [by rewrite lookup_insert_ne, lookup_insert_eq|].
  split; [by rewrite lookup_insert_eq|].
  intros key H1 H2 H3.
  rewrite !lookup_insert_ne by congruence. apply lookup_fmap.
Qed.

Lemma payload_of_accepted_submit_witness :
  exists request,
    sent (submit sample_env (showing jane_ungrouped) sample_date) = [request] /\
    emailjs.templateParams request !! "to_email"
      = Some (Some (str "contact@evakech.com")) /\
    emailjs.templateParams request !! "service" = Some (Some (str "Autre")).
Proof.
  destruct (payload_of_accepted_submit sample_env (showing jane_ungrouped)
              sample_date) as (r & H1 & _ & _ & _ & H5 & _ & H7);
    [reflexivity | reflexivity | simpl; discriminate |].
  exists r. split; [exact H1|]. split; [exact H5|].
  rewrite H7 by discriminate. reflexivity.
Defined.

(** The list of delivery calls only grows, by one request at a time, and
    only through a submit made in a status other than [sending] with both
    checks passed; no other event adds, removes or rewrites a call. *)
Theorem only_accepted_submit_sends env c e :
  sent (step env c e) = sent c \/
  exists date,
    e = Submit date /\ status c <> sending /\
    phone_ok (formData c) = true /\ email_ok (formData c) = true /\
    sent (step env c e) = sent c ++ [request_of env (formData c) date].
Proof.
  destruct e as [name value | date | i outcome | dt]; simpl.
  - left. apply change_frame.
  - destruct (submit_cases env c date)
      as [[_ ->] | [(_ & _ & ->) | [(_ & _ & _ & ->) | (Hs & Hp & He & ->)]]];
      simpl; auto.
    right. exists date. auto.
  - left. apply settle_sent.
  - left. apply advance_frame.
Qed.

Lemma phone_ok_present (fields : FormData) :
  phone_ok fields = true ->
  exists phone, fields !! "phone" = Some phone /\ test phoneRegex phone = true.
Proof.
  unfold phone_ok. destruct (fields !! "phone") as [phone|]; simpl.
  - intros H. by exists phone.
  - intros H. vm_compute in H. discriminate.
Qed.

Lemma email_ok_present (fields : FormData) :
  email_ok fields = true ->
  exists email, fields !! "email" = Some email /\ test emailRegex email = true.
Proof.
  unfold email_ok. destruct (fields !! "email") as [email|]; simpl.
  - intros H. by exists email.
  - intros H. vm_compute in H. discriminate.
Qed.

Lemma request_of_checked env (fields : FormData) date :
  phone_ok fields = true -> email_ok fields = true ->
  checked_request (request_of env fields date).
Proof.
  intros Hp He.
  destruct (phone_ok_present _ Hp) as (phone & Hphone & Htp).
  destruct (email_ok_present _ He) as (email & Hemail & Hte).
  exists phone, email. unfold request_of. simpl.
  rewrite !lookup_insert_ne by discriminate.
  rewrite lookup_insert_eq, !lookup_fmap, Hphone, Hemail. auto.
Qed.

Lemma step_checked env c e :
  Forall checked_request (sent c) -> Forall checked_request (sent (step env c e)).
Proof.
  intros Hc. destruct e as [name value | date | i outcome | dt]; simpl.
  - destruct (change_frame c name value) as (_ & _ & _ & _ & Hsent & _).
    by rewrite Hsent.
  - destruct (submit_cases env c date)
      as [[_ ->] | [(_ & _ & ->) | [(_ & _ & _ & ->) | (Hs & Hp & He & ->)]]];
      simpl; auto.
    apply Forall_app. split; [exact Hc|].
    constructor; [by apply request_of_checked | constructor].
  - by rewrite settle_sent.
  - destruct (advance_frame c dt) as (_ & _ & Hsent & _). by rewrite Hsent.
Qed.

(** Whatever the events, every request the form sends has a phone and an
    email parameter that pass the two patterns, and that email as reply-to
    address. *)
Theorem every_request_checked env c events :
  Forall checked_request (sent c) ->
  Forall checked_request (sent (after env c events)).
Proof.
  revert c. induction events as [|e events IH]; intros c Hc; simpl; [exact Hc|].
  apply IH. by apply step_checked.
Qed.

Lemma every_request_checked_witness :
  Forall checked_request
    (sent (after sample_env mount
             [Change "phone" (str "0612345678"); Submit sample_date;
              Change "email" (str "jane@example.com"); Submit sample_date;
              Settle 0 (accepted 200); Submit sample_date])).
Proof.
  apply (every_request_checked sample_env mount). simpl. constructor.
Defined.

(** A submit, accepted or not, valid or not, cancels no pending timer and
    changes no field. *)
Theorem submit_keeps_timers_and_fields env c date :
  timers (submit env c date) = timers c /\
  clock (submit env c date) = clock c /\
  formData (submit env c date) = formData c.
Proof.
  destruct (submit_cases env c date)
    as [[_ ->] | [(_ & _ & ->) | [(_ & _ & _ & ->) | (_ & _ & _ & ->)]]];
    simpl; auto.
Qed.

Lemma advance_scheduled c t ms :
  due t = (clock c + ms)%N ->
  exists before,
    advance (with_timers c (schedule t (timers c))) ms = fire before t.
Proof.
  intros Hdue. unfold advance. simpl. rewrite <- Hdue.
  rewrite expired_schedule. simpl. rewrite fold_left_fire_last.
  eexists. reflexivity.
Qed.

(** When the awaited call is rejected, the fault goes to the console, the
    status is [error] with the generic message, the fields and the calls
    are kept, and one reset is scheduled 5000 ms later; once that delay has
    passed the status is [idle] and the message empty. *)
Theorem rejected_call_shows_error_then_resets c i reason :
  awaiting c !! i = Some handleSubmit_settled ->
  status (settle c i (emailjs.Rejected reason)) = error /\
  errorMessage (settle c i (emailjs.Rejected reason))
    = "Une erreur est survenue. Veuillez réessayer." /\
  formData (settle c i (emailjs.Rejected reason)) = formData c /\
  sent (settle c i (emailjs.Rejected reason)) = sent c /\
  console (settle c i (emailjs.Rejected reason))
    = console c ++ [("Erreur EmailJS:", reason)] /\
  timers (settle c i (emailjs.Rejected reason))
    = schedule {| due := (clock c + 5000)%N;
                  callback := [setStatus idle; setErrorMessage ""] |}
        (timers c) /\
  status (advance (settle c i (emailjs.Rejected reason)) 5000) = idle /\
  errorMessage (advance (settle c i (emailjs.Rejected reason)) 5000) = "".
Proof.
  intros Hk. unfold settle. rewrite Hk, settled_rejected. simpl.
  repeat (split; [reflexivity|]).
  destruct (advance_scheduled
              {| formData := formData c; status := error;
                 errorMessage := "Une erreur est survenue. Veuillez réessayer.";
                 clock := clock c; timers := timers c; sent := sent c;
                 awaiting := delete i (awaiting c);
                 console := console c ++ [("Erreur EmailJS:", reason)] |}
              {| due := (clock c + 5000)%N;
                 callback := [setStatus idle; setErrorMessage ""] |} 5000 eq_refl)
    as [before Hadv].
  unfold with_timers in Hadv. simpl in Hadv. rewrite Hadv.
  split; reflexivity.
Qed.

Lemma rejected_call_shows_error_then_resets_witness :
  status (settle (submit sample_env (showing jane_ungrouped) sample_date) 0
            (emailjs.Rejected (str "Failed to fetch"))) = error /\
  status (advance
            (settle (submit sample_env (showing jane_ungrouped) sample_date) 0
               (emailjs.Rejected (str "Failed to fetch"))) 5000) = idle.
Proof.
  destruct (rejected_call_shows_error_then_resets
              (submit sample_env (showing jane_ungrouped) sample_date) 0
              (str "Failed to fetch")) as (H1 & _ & _ & _ & _ & _ & H7 & _);
    [reflexivity|].
  split; [exact H1 | exact H7].
Defined.

Lemma fire_reset c t :
  reset_callback (callback t) ->
  formData (fire c t) = formData c /\ status (fire c t) = idle /\
  (errorMessage (fire c t) = errorMessage c \/ errorMessage (fire c t) = "").
Proof. unfold fire. intros [-> | ->]; simpl; auto. Qed.

(** Resets are never cancelled: if one is pending when a valid form is
    submitted and it comes due while the call is awaited, it puts the
    status back to [idle], the controls are enabled again, and a second
    submit sends a second request while the first is still awaited. *)
Theorem stale_timer_reenables_submit env c date date' t dt :
  phone_ok (formData c) = true -> email_ok (formData c) = true ->
  status c <> sending ->
  timers c = [t] -> reset_callback (callback t) ->
  (due t <= clock c + dt)%N ->
  status (advance (submit env c date) dt) = idle /\
  disabled (advance (submit env c date) dt) = false /\
  awaiting (advance (submit env c date) dt)
    = awaiting c ++ [handleSubmit_settled] /\
  sent (submit env (advance (submit env c date) dt) date')
    = sent c ++ [request_of env (formData c) date;
                 request_of env (formData c) date'].
Proof.
  intros Hp He Hs Ht Hcb Hdue.
  rewrite (submit_enabled _ _ _ Hs), (onSubmit_valid _ _ _ Hp He).
  unfold advance. simpl. rewrite Ht. simpl.
  apply N.leb_le in Hdue. rewrite Hdue. simpl.
  match goal with |- context [fire ?x t] => set (c0 := x) end.
  destruct (fire_reset c0 t Hcb) as (Hf & Hst & _).
  destruct (fire_frame c0 t) as (_ & _ & Hsent & Haw & _).
  assert (Hs' : status (fire c0 t) <> sending) by (rewrite Hst; discriminate).
  split; [exact Hst|]. split; [unfold disabled; by rewrite Hst|].
  split; [by rewrite Haw|].
  rewrite (submit_enabled _ _ _ Hs'), onSubmit_valid by (by rewrite Hf).
  simpl. rewrite Hsent, Hf. subst c0. simpl. by rewrite <- app_assoc.
Qed.

Lemma stale_timer_reenables_submit_witness :
  status (advance (submit sample_env awaiting_reset sample_date) 2000) = idle /\
  disabled (advance (submit sample_env awaiting_reset sample_date) 2000) = false.
Proof.
  destruct (stale_timer_reenables_submit sample_env awaiting_reset
              sample_date sample_date
              {| due := 5000; callback := [setStatus idle; setErrorMessage ""] |}
              2000) as (H1 & H2 & _).
  - vm_compute. reflexivity.
  - vm_compute. reflexivity.
  - vm_compute. discriminate.
  - vm_compute. reflexivity.
  - right. reflexivity.
  - vm_compute. discriminate.
  - split; [exact H1 | exact H2].
Defined.

(** ** An invariant of the mounted component *)
Lemma expired_split now queue :
  fst (expired now queue) ++ snd (expired now queue) = queue.
Proof.
  induction queue as [|t queue IH]; simpl; [reflexivity|].
  destruct (N.leb (due t) now); simpl; [by rewrite IH | reflexivity].
Qed.

Lemma expired_all now queue :
  Forall (fun t => (due t <= now)%N) queue -> expired now queue = (queue, []).
Proof.
  induction 1 as [|t queue Ht _ IH]; simpl; [reflexivity|].
  apply N.leb_le in Ht. rewrite Ht, IH. reflexivity.
Qed.

Lemma schedule_Forall (P : Timer -> Prop) t queue :
  P t -> Forall P queue -> Forall P (schedule t queue).
Proof.
  intros Ht. induction 1 as [|u queue Hu Hq IH]; simpl.
  - by constructor.
  - destruct (N.leb (due u) (due t)); repeat constructor; auto.
Qed.

Lemma schedule_nonempty t queue : schedule t queue <> [].
Proof. destruct queue as [|u queue]; simpl; [|destruct (N.leb _ _)]; discriminate. Qed.

Lemma fires_reset ts : forall c,
  Forall (fun t => reset_callback (callback t)) ts ->
  formData (fold_left fire ts c) = formData c /\
  ((ts = [] /\ fold_left fire ts c = c) \/
   (ts <> [] /\ status (fold_left fire ts c) = idle)).
Proof.
  induction ts as [|t ts IH] using rev_ind; intros c Hall; simpl.
  - auto.
  - apply Forall_app in Hall as [Hts Ht]. rewrite Forall_singleton in Ht.
    rewrite fold_left_app. simpl.
    destruct (fire_reset (fold_left fire ts c) t Ht) as (Hf & Hs & _).
    destruct (IH c Hts) as [IHf _].
    split; [by rewrite Hf|]. right. split; [|exact Hs].
    intros Heq. by apply app_eq_nil in Heq as [_ ?].
Qed.

Lemma sound_mount : sound mount.
Proof.
  split; [split; constructor|]. split.
  - unfold has_fields. repeat constructor; by eexists.
  - repeat split; simpl; discriminate || reflexivity.
Qed.

Lemma has_fields_emptyForm : has_fields emptyForm.
Proof. unfold has_fields. repeat constructor; by eexists. Qed.

Lemma has_fields_insert (fields : FormData) name value :
  has_fields fields -> has_fields (<[name := value]> fields).
Proof.
  unfold has_fields. intros H. eapply Forall_impl; [exact H|].
  intros key Hk. simpl in *. rewrite lookup_insert_is_Some. 
  destruct (decide (name = key)); auto.
Qed.

Lemma sound_change c name value : sound c -> sound (change c name value).
Proof.
  intros Hc. unfold change. destruct (disabled c); [exact Hc|].
  destruct Hc as (Hg & Hf & Hcons).
  split; [exact Hg|]. split; [|exact Hcons].
  by apply has_fields_insert.
Qed.

Lemma sound_submit env c date : sound c -> sound (submit env c date).
Proof.
  intros Hc. pose proof Hc as ((Haw & Htm) & Hf & (He & Hs & Hok)).
  destruct (submit_cases env c date)
    as [[_ ->] | [(_ & _ & ->) | [(_ & _ & _ & ->) | (_ & _ & _ & ->)]]];
    [exact Hc | | |].
  - split; [split; assumption|]. split; [assumption|].
    repeat split; simpl; discriminate.
  - split; [split; assumption|]. split; [assumption|].
    repeat split; simpl; discriminate.
  - split; [split; simpl; [|assumption]|].
    + apply Forall_app. split; [assumption|]. by constructor.
    + split; [assumption|]. repeat split; simpl; discriminate || reflexivity.
Qed.

Lemma sound_settle c i outcome : sound c -> sound (settle c i outcome).
Proof.
  intros Hc. pose proof Hc as ((Haw & Htm) & Hf & (He & Hs & Hok)).
  unfold settle. destruct (awaiting c !! i) as [k|] eqn:Hk; [|exact Hc].
  assert (k = handleSubmit_settled) as ->.
  { rewrite Forall_lookup in Haw. exact (Haw i k Hk). }
  assert (Haw' : Forall (fun k => k = handleSubmit_settled) (delete i (awaiting c)))
    by (by apply Forall_delete).
  destruct outcome as [response | reason].
  - destruct (Z.eq_dec (emailjs.status response) 200%Z) as [H200 | H200].
    + rewrite (settled_ok _ H200). simpl.
      split; [split; simpl; [assumption|]|].
      * apply schedule_Forall; [|assumption].
        simpl. split; [by left | lia].
      * split; [exact has_fields_emptyForm|].
        repeat split; simpl; try discriminate.
        intros _. apply schedule_nonempty.
    + rewrite (settled_other_status _ H200). simpl.
      split; [split; assumption|]. split; [assumption|].
      repeat split; assumption.
  - rewrite settled_rejected.
    split; [split; simpl; [assumption|]|].
    + apply schedule_Forall; [|assumption].
      simpl. split; [by right | lia].
    + split; [assumption|]. repeat split; simpl; discriminate.
Qed.

Lemma sound_advance c dt : sound c -> sound (advance c dt).
Proof.
  intros ((Haw & Htm) & Hf & (He & Hs & Hok)).
  pose proof (expired_split (clock c + dt) (timers c)) as Hsplit.
  assert (Hparts : Forall (fun t => reset_callback (callback t) /\
                                    (due t <= clock c + 5000)%N)
                     (fst (expired (clock c + dt) (timers c)) ++
                      snd (expired (clock c + dt) (timers c))))
    by (by rewrite Hsplit).
  apply Forall_app in Hparts as [Hdue Hrest].
  destruct (advance_frame c dt) as (Hclock & Htimers & _ & Hawait).
  assert (Hcb : Forall (fun t => reset_callback (callback t))
                  (fst (expired (clock c + dt) (timers c))))
    by (eapply Forall_impl; [exact Hdue | by intros t [? _]]).
  unfold advance in *.
  match goal with |- sound (fold_left fire _ ?x) => set (c0 := x) in * end.
  destruct (fires_reset _ c0 Hcb) as (Hfd & Hcase).
  split; [split|split].
  - by rewrite Hawait.
  - rewrite Htimers, Hclock. eapply Forall_impl; [exact Hrest|].
    intros t [Hr Hd]. split; [exact Hr | simpl in *; lia].
  - by rewrite Hfd.
  - destruct Hcase as [[Hnil Hsame] | [_ Hidle]].
    + rewrite Hsame. subst c0. simpl.
      rewrite Hnil in Hsplit. simpl in Hsplit. rewrite Hsplit.
      repeat split; assumption.
    + repeat split; rewrite Hidle; discriminate.
Qed.

Lemma sound_step env c e : sound c -> sound (step env c e).
Proof.
  destruct e; simpl;
    auto using sound_change, sound_submit, sound_settle, sound_advance.
Qed.

Lemma sound_after env events : forall c, sound c -> sound (after env c events).
Proof.
  induction events as [|e events IH]; intros c Hc; simpl; [exact Hc|].
  apply IH. by apply sound_step.
Qed.

(** From the mounted component, whatever the events: the six fields are
    always present in the form data (so the validator never reads
    [undefined]), every suspended handler is [handleSubmit]'s
    continuation, and every pending timer is one of its two resets. *)
Theorem fields_always_present env events name :
  In name field_names ->
  is_Some (formData (after env mount events) !! name) /\
  Forall (fun k => k = handleSubmit_settled) (awaiting (after env mount events)) /\
  Forall (fun t => reset_callback (callback t)) (timers (after env mount events)).
Proof.
  intros Hn.
  destruct (sound_after env events mount sound_mount) as ((Haw & Htm) & Hf & _).
  split; [|split; [exact Haw|]].
  - unfold has_fields in Hf. rewrite Forall_forall in Hf.
    apply Hf. by apply list_elem_of_In.
  - eapply Forall_impl; [exact Htm | by intros t [? _]].
Qed.

Lemma fields_always_present_witness :
  is_Some (formData (after sample_env mount
                       [Change "nickname" (str "JD"); Submit sample_date;
                        Change "phone" (str "0612345678")]) !! "service").
Proof.
  apply (fields_always_present sample_env
           [Change "nickname" (str "JD"); Submit sample_date;
            Change "phone" (str "0612345678")] "service").
  do 4 right. left. reflexivity.
Defined.

(** From the mounted component, whatever the events: when the status is
    [error] the message is not empty and the error alert shows it; when
    the status is [sending] the message is empty; in every other status no
    error alert is shown. *)
Theorem error_alert_always_has_message env events :
  (status (after env mount events) = error ->
   errorMessage (after env mount events) <> "" /\
   error_alert (after env mount events)
     = Some (errorMessage (after env mount events))) /\
  (status (after env mount events) = sending ->
   errorMessage (after env mount events) = "" /\
   error_alert (after env mount events) = None) /\
  (status (after env mount events) <> error ->
   error_alert (after env mount events) = None).
Proof.
  destruct (sound_after env events mount sound_mount) as (_ & _ & (He & Hs & _)).
  unfold error_alert. split; [|split].
  - intros Hst. specialize (He Hst). split; [exact He|].
    rewrite Hst. simpl.
    destruct (String.eqb_spec (errorMessage (after env mount events)) "");
      [contradiction | reflexivity].
  - intros Hst. split; [by apply Hs|]. by rewrite Hst.
  - intros Hst. destruct (status (after env mount events)); try reflexivity.
    contradiction.
Qed.

Lemma error_alert_always_has_message_witness :
  error_alert (after sample_env mount [Submit sample_date])
    = Some "Numéro de téléphone invalide".
Proof.
  destruct (error_alert_always_has_message sample_env [Submit sample_date])
    as [H _].
  destruct H as [_ H]; [reflexivity | exact H].
Defined.

(** From the mounted component, whatever the events: after 5000 ms
    without events no timer is pending any more; a status [success] has
    then gone back to [idle], and any other status is unchanged or
    [idle]. *)
Theorem resets_fire_within_delay env events :
  timers (advance (after env mount events) 5000) = [] /\
  (status (after env mount events) = success ->
   status (advance (after env mount events) 5000) = idle) /\
  (status (advance (after env mount events) 5000)
     = status (after env mount events) \/
   status (advance (after env mount events) 5000) = idle).
Proof.
  destruct (sound_after env events mount sound_mount)
    as ((_ & Htm) & _ & (_ & _ & Hok)).
  set (c := after env mount events) in *.
  assert (Hall : expired (clock c + 5000) (timers c) = (timers c, [])).
  { apply expired_all. eapply Forall_impl; [exact Htm | by intros t [_ ?]]. }
  assert (Hcb : Forall (fun t => reset_callback (callback t)) (timers c))
    by (eapply Forall_impl; [exact Htm | by intros t [? _]]).
  destruct (advance_frame c 5000) as (_ & Htimers & _).
  rewrite Hall in Htimers. split; [exact Htimers|].
  unfold advance. rewrite Hall. simpl.
  match goal with |- context [fold_left fire _ ?x] => set (c0 := x) end.
  destruct (fires_reset (timers c) c0 Hcb) as (_ & [[Hnil Hsame] | [_ Hidle]]).
  - split; [intros Hs; by destruct (Hok Hs) | left; by rewrite Hsame].
  - split; [intros _; exact Hidle | right; exact Hidle].
Qed.

Lemma resets_fire_within_delay_witness :
  status (advance
            (after sample_env mount
               [Change "phone" (str "0612345678");
                Change "email" (str "jane@example.com");
                Submit sample_date; Settle 0 (accepted 200)]) 5000) = idle.
Proof.
  destruct (resets_fire_within_delay sample_env
              [Change "phone" (str "0612345678");
               Change "email" (str "jane@example.com");
               Submit sample_date; Settle 0 (accepted 200)]) as (_ & H & _).
  apply H. reflexivity.
Defined.

Lemma advance_nothing_fires c dt :
  fst (expired (clock c + dt) (timers c)) = [] ->
  advance c dt =
    {| formData := formData c; status := status c;
       errorMessage := errorMessage c; clock := (clock c + dt)%N;
       timers := timers c; sent := sent c; awaiting := awaiting c;
       console := console c |}.
Proof.
  intros Hnone. pose proof (expired_split (clock c + dt) (timers c)) as Hsplit.
  rewrite Hnone in Hsplit. simpl in Hsplit.
  unfold advance. rewrite Hnone, Hsplit. reflexivity.
Qed.

Lemma one_in_flight_step env c e :
  fires c e = false -> one_in_flight c -> one_in_flight (step env c e).
Proof.
  intros He [Hlen Hst]. destruct e as [name value | date | i outcome | dt];
    simpl in *.
  - destruct (change_frame c name value) as (Hs & _ & _ & _ & _ & Ha).
    unfold one_in_flight. by rewrite Ha, Hs.
  - destruct (submit_cases env c date)
      as [[_ ->] | [(Hs & _ & ->) | [(Hs & _ & _ & ->) | (Hs & _ & _ & ->)]]];
      unfold one_in_flight; simpl.
    + split; assumption.
    + split; [exact Hlen|]. intros Ha. specialize (Hst Ha). contradiction.
    + split; [exact Hlen|]. intros Ha. specialize (Hst Ha). contradiction.
    + destruct (awaiting c) as [|k ks]; simpl; [split; [lia | reflexivity]|].
      exfalso. apply Hs, Hst. discriminate.
  - unfold settle. destruct (awaiting c !! i) as [k|] eqn:Hk; [|by split].
    match goal with |- one_in_flight (run ?x ?es) =>
      destruct (run_frame es x) as (_ & _ & Ha) end.
    unfold one_in_flight. rewrite Ha. simpl.
    destruct (awaiting c) as [|k0 [|k1 ks]]; simpl in *; try lia.
    + discriminate.
    + destruct i; simpl in *; [|discriminate]. split; [lia | congruence].
  - destruct (fst (expired (clock c + dt) (timers c))) eqn:Hnone;
      [|discriminate].
    rewrite (advance_nothing_fires _ _ Hnone). split; assumption.
Qed.

(** As long as no timer fires (time may pass, as long as it stays short
    of every pending timer), the disabled controls keep at most one call
    awaited, and only in status [sending]. *)
Theorem one_call_in_flight_until_a_timer_fires env events : forall c,
  one_in_flight c ->
  no_timer_fires env c events = true ->
  one_in_flight (after env c events).
Proof.
  induction events as [|e events IH]; intros c Hc Hev; simpl; [exact Hc|].
  simpl in Hev. apply andb_true_iff in Hev as [He Hev].
  apply negb_true_iff in He.
  apply IH; [|exact Hev]. by apply one_in_flight_step.
Qed.

Lemma one_call_in_flight_until_a_timer_fires_witness :
  one_in_flight
    (after sample_env (showing jane_ungrouped)
       [Submit sample_date; Advance 1000; Submit sample_date;
        Settle 0 (emailjs.Rejected []); Advance 4999;
        Change "phone" (str "0612345678"); Submit sample_date;
        Submit sample_date]).
Proof.
  apply (one_call_in_flight_until_a_timer_fires sample_env
           [Submit sample_date; Advance 1000; Submit sample_date;
            Settle 0 (emailjs.Rejected []); Advance 4999;
            Change "phone" (str "0612345678"); Submit sample_date;
            Submit sample_date]
           (showing jane_ungrouped)).
  - split; simpl; [lia | congruence].
  - vm_compute. reflexivity.
Defined.

Lemma press_blocked env browser c consent date :
  checkValidity browser c consent = false ->
  press env browser c consent date = c.
Proof. intros H. unfold press. rewrite H. by destruct (disabled c). Qed.

Lemma checkValidity_missing browser c consent name :
  In name required_fields -> value_missing c name = true ->
  checkValidity browser c consent = false.
Proof.
  intros Hin Hmiss. unfold checkValidity.
  destruct (forallb (fun name => negb (value_missing c name)) required_fields)
    eqn:Hall; [|reflexivity].
  rewrite forallb_forall in Hall. specialize (Hall name Hin).
  rewrite Hmiss in Hall. discriminate.
Qed.

(** A press of the submit button reaches the handler only through the
    browser's validation: it changes nothing when a required control is
    empty or the consent box is not ticked, and it is the submit event
    otherwise.  In particular, right after an acknowledged send the form
    is empty, so a press without typing changes nothing: the status stays
    [success] and nothing more is sent. *)
Theorem press_needs_valid_controls env browser c consent date :
  (forall name, In name required_fields -> value_missing c name = true ->
     press env browser c consent date = c) /\
  press env browser c false date = c /\
  (checkValidity browser c consent = true ->
   press env browser c consent date = submit env c date) /\
  (forall i response,
     awaiting c !! i = Some handleSubmit_settled ->
     emailjs.status response = 200%Z ->
     press env browser (settle c i (emailjs.Fulfilled response)) consent date
       = settle c i (emailjs.Fulfilled response) /\
     status (press env browser (settle c i (emailjs.Fulfilled response))
               consent date) = success /\
     sent (press env browser (settle c i (emailjs.Fulfilled response))
             consent date) = sent c).
Proof.
  split; [|split; [|split]].
  - intros name Hin Hmiss. apply press_blocked.
    by apply (checkValidity_missing _ _ _ name).
  - apply press_blocked. unfold checkValidity. apply andb_false_r.
  - intros Hok. unfold press, submit. rewrite Hok. reflexivity.
  - intros i response Hk H200.
    assert (Hsettled : settle c i (emailjs.Fulfilled response) =
      {| formData := emptyForm; status := success;
         errorMessage := errorMessage c; clock := clock c;
         timers := schedule {| due := (clock c + 5000)%N;
                               callback := [setStatus idle] |} (timers c);
         sent := sent c; awaiting := delete i (awaiting c);
         console := console c |}).
    { unfold settle. rewrite Hk, (settled_ok _ H200). reflexivity. }
    rewrite Hsettled.
    rewrite (press_blocked env browser _ consent date);
      [split; [reflexivity | split; reflexivity]|].
    apply (checkValidity_missing _ _ _ "phone"); [|reflexivity].
    do 3 right. left. reflexivity.
Qed.

Lemma press_needs_valid_controls_witness :
  press sample_env sample_browser mount true
    sample_date = mount /\
  press sample_env sample_browser
    (showing jane_ungrouped) true sample_date
    = submit sample_env (showing jane_ungrouped) sample_date /\
  status (press sample_env sample_browser
            (settle (submit sample_env (showing jane_ungrouped) sample_date) 0
               (emailjs.Fulfilled
                  {| emailjs.status := 200; emailjs.text := str "OK" |}))
            true sample_date) = success.
Proof.
  split; [|split].
  - destruct (press_needs_valid_controls sample_env
                sample_browser mount true
                sample_date) as (H & _).
    apply (H "phone"); [do 3 right; left; reflexivity | reflexivity].
  - destruct (press_needs_valid_controls sample_env
                sample_browser
                (showing jane_ungrouped) true sample_date) as (_ & _ & H & _).
    apply H. reflexivity.
  - destruct (press_needs_valid_controls sample_env
                sample_browser
                (submit sample_env (showing jane_ungrouped) sample_date)
                true sample_date) as (_ & _ & _ & H).
    destruct (H 0 {| emailjs.status := 200; emailjs.text := str "OK" |})
      as (_ & H2 & _); [reflexivity | reflexivity | exact H2].
Defined.

Lemma find_app_None {A} (f : A -> bool) l1 l2 :
  List.find f l1 = None -> List.find f (l1 ++ l2) = List.find f l2.
Proof.
  induction l1 as [|x l1 IH]; simpl; [reflexivity|].
  destruct (f x); [discriminate | exact IH].
Qed.

Lemma find_app_None_inv {A} (f : A -> bool) l1 l2 :
  List.find f (l1 ++ l2) = None -> List.find f l1 = None.
Proof.
  induction l1 as [|x l1 IH]; simpl; [reflexivity|].
  destruct (f x); [discriminate | exact IH].
Qed.

Lemma getElementById_appended d child i :
  DOM.getElementById d i = None ->
  DOM.id child = i ->
  DOM.getElementById (DOM.head_appendChild d child) i = Some child.
Proof.
  unfold DOM.getElementById, DOM.all_elements, DOM.head_appendChild. simpl.
  destruct (DOM.head d) as [n j t ch]. simpl.
  destruct (String.eqb j i) eqn:Hj; [discriminate|].
  intros Hnone Hid.
  apply find_app_None_inv in Hnone.
  rewrite flat_map_app, <- app_assoc. rewrite (find_app_None _ _ _ Hnone).
  simpl. rewrite app_nil_r.
  destruct child as [cn ci ct cch]. simpl in *. subst ci.
  by rewrite String.eqb_refl.
Qed.

(** In a browser the injection always succeeds; it leaves the body and
    the head's own name and id alone, and either changes nothing or, when
    no element carried the marker id, appends the one [style] element
    holding [styles] after the head's children. *)
Theorem inject_styles_only_appends d :
  exists d',
    inject_styles (Some d) = Some d' /\
    DOM.body d' = DOM.body d /\
    DOM.localName (DOM.head d') = DOM.localName (DOM.head d) /\
    DOM.id (DOM.head d') = DOM.id (DOM.head d) /\
    (d' = d \/
     (DOM.getElementById d "contact-form-styles" = None /\
      DOM.children (DOM.head d')
        = DOM.children (DOM.head d)
          ++ [DOM.Elem "style" "contact-form-styles" styles []])).
Proof.
  unfold inject_styles.
  destruct (DOM.getElementById d "contact-form-styles") as [e|] eqn:Hget.
  - exists d. auto 6.
  - eexists. split; [reflexivity|].
    unfold DOM.head_appendChild. simpl.
    destruct (DOM.head d) as [n j t ch]. simpl. auto 7.
Qed.

(** After the injection, looking the marker id up always finds an
    element: the injected [style] element when the id was unused, the
    element that already carried it otherwise (and then the document is
    unchanged). *)
Theorem inject_styles_marker_found d :
  exists d' e,
    inject_styles (Some d) = Some d' /\
    DOM.getElementById d' "contact-form-styles" = Some e /\
    (DOM.getElementById d "contact-form-styles" = None ->
     e = DOM.Elem "style" "contact-form-styles" styles []) /\
    (forall e0, DOM.getElementById d "contact-form-styles" = Some e0 ->
                e = e0 /\ d' = d).
Proof.
  unfold inject_styles.
  destruct (DOM.getElementById d "contact-form-styles") as [e0|] eqn:Hget.
  - exists d, e0. split; [reflexivity|]. split; [exact Hget|].
    split; [discriminate|]. intros e1 [= <-]. auto.
  - eexists. eexists. split; [reflexivity|].
    split; [by apply getElementById_appended|].
    split; [reflexivity | discriminate].
Qed.

Lemma inject_styles_marker_found_witness :
  exists d',
    inject_styles (Some plain_document) = Some d' /\
    DOM.getElementById d' "contact-form-styles"
      = Some (DOM.Elem "style" "contact-form-styles" styles []).
Proof.
  destruct (inject_styles_marker_found plain_document)
    as (d' & e & H1 & H2 & H3 & _).
  exists d'. split; [exact H1|]. rewrite H2, (H3 eq_refl). reflexivity.
Defined.

(** ** Editing fields *)

(** Typing twice into the same control keeps the last value only, and
    edits of two different controls give the same form in either order. *)
Theorem changes_compose c name name' value value' :
  onChange (onChange c name value) name value' = onChange c name value' /\
  (name <> name' ->
   onChange (onChange c name value) name' value'
   = onChange (onChange c name' value') name value).
Proof.
  unfold onChange. simpl. split.
  - by rewrite insert_insert_eq.
  - intros Hne. f_equal. apply insert_insert_ne. congruence.
Qed.

Lemma changes_compose_witness :
  onChange (onChange mount "email" (str "a@b.c")) "phone" (str "0612345678")
  = onChange (onChange mount "phone" (str "0612345678")) "email" (str "a@b.c").
Proof.
  apply (changes_compose mount "email" "phone" (str "a@b.c") (str "0612345678")).
  discriminate.
Defined.
